(** * cotwit19: the time-series pipeline of [src/index.ts]

    A shallow embedding of [orZero] and of the two revisions of [fetchData]
    found in [src/index.ts]: the CSV-to-timeline builders of the zip-entry
    handler and the alignment step of the zip-end handler.

    - names ending in [_v1] belong to the first revision (per-index
      slice-and-reduce running sum, [Math.min] of the last dates, strict [<]
      at the trailing edge);
    - names ending in [_v2] belong to the second revision (single-pass
      accumulating reduce, last date folded from [new Date()], inclusive
      [<=] at the trailing edge).

    JavaScript arrays are lists, array indices are [Z] (so that the [-1] of
    [findIndex] and the negative arguments of [slice] behave as in the
    language), a [Date] is its [getTime()] value in milliseconds. *)

From Stdlib Require Import ZArith List Bool String Ascii Sorted Lia.
Import ListNotations.
Local Open Scope string_scope.
Local Open Scope list_scope.
Local Open Scope Z_scope.

Set Implicit Arguments.

(** ** The host language: numbers *)

(** The primitives of the JavaScript [number] type that the program uses:
    the literal [0], the value [NaN], binary [+], [Number.isNaN] and the
    conversion [Number(string)].  Nothing is assumed about them, so every
    general statement below holds for IEEE doubles as for any other reading. *)
Class JSNumber : Type := {
  number : Type;
  zero : number;
  NaN : number;
  add : number -> number -> number;
  isNaN : number -> bool;
  Number : string -> number
}.

(** A [Date] created by [d3.timeParse] or by [new Date(0)] is always valid;
    it is represented by [getTime()]. *)
Definition Date : Type := Z.

(** [new Date(0)] *)
Definition epoch : Date := 0.

(** ** The host language: arrays *)

Section Arrays.
Variable A : Type.

(** [a.length] *)
Definition len (a : list A) : Z := Z.of_nat (List.length a).

(** The clamping of a relative index done by [Array.prototype.slice]:
    a negative index counts from the end, and both ends saturate. *)
Definition relative (size i : Z) : Z :=
  if i <? 0 then Z.max (size + i) 0 else Z.min i size.

(** [a.slice(start, end)] *)
Definition slice (a : list A) (start end_ : Z) : list A :=
  let k := relative (len a) start in
  let final := relative (len a) end_ in
  firstn (Z.to_nat (final - k)) (skipn (Z.to_nat k) a).

(** [a.slice(start)]: the end defaults to [a.length] *)
Definition slice_from (a : list A) (start : Z) : list A :=
  slice a start (len a).

Fixpoint findIndex_at (p : A -> bool) (a : list A) (i : Z) : Z :=
  match a with
  | [] => -1
  | x :: rest => if p x then i else findIndex_at p rest (i + 1)
  end.

(** [a.findIndex(p)]: the first index whose element satisfies [p], or [-1] *)
Definition findIndex (p : A -> bool) (a : list A) : Z := findIndex_at p a 0.

(** [a[i]] for a natural index; [None] is [undefined] *)
Definition at_ (a : list A) (i : nat) : option A := nth_error a i.

(** [a[a.length - 1]] *)
Definition last_elem (a : list A) : option A :=
  match a with
  | [] => None
  | _ => nth_error a (List.length a - 1)
  end.
End Arrays.

(** ** The host language: strings *)

Fixpoint indexOf_at (needle s : string) (i : Z) : Z :=
  if prefix needle s then i
  else match s with
       | EmptyString => -1
       | String _ rest => indexOf_at needle rest (i + 1)
       end.

(** [s.indexOf(needle)] *)
Definition indexOf (s needle : string) : Z := indexOf_at needle s 0.

(** [Math.max(...xs)] and [Math.min(...xs)] range over the numbers extended
    with the two infinities, which are their values on an empty argument
    list. *)
Inductive bound : Type :=
| MinusInfinity
| Finite (t : Z)
| PlusInfinity.

Definition bmax (a b : bound) : bound :=
  match a, b with
  | PlusInfinity, _ | _, PlusInfinity => PlusInfinity
  | MinusInfinity, x | x, MinusInfinity => x
  | Finite x, Finite y => Finite (Z.max x y)
  end.

Definition bmin (a b : bound) : bound :=
  match a, b with
  | MinusInfinity, _ | _, MinusInfinity => MinusInfinity
  | PlusInfinity, x | x, PlusInfinity => x
  | Finite x, Finite y => Finite (Z.min x y)
  end.

Definition Math_max (xs : list Z) : bound :=
  fold_left (fun m x => bmax m (Finite x)) xs MinusInfinity.

Definition Math_min (xs : list Z) : bound :=
  fold_left (fun m x => bmin m (Finite x)) xs PlusInfinity.

(** [t >= b] and [t < b] for a finite [t] *)
Definition geb_bound (t : Z) (b : bound) : bool :=
  match b with
  | MinusInfinity => true
  | Finite x => x <=? t
  | PlusInfinity => false
  end.

Definition ltb_bound (t : Z) (b : bound) : bool :=
  match b with
  | MinusInfinity => false
  | Finite x => t <? x
  | PlusInfinity => true
  end.

(** ** Data model *)

(** The keys of [Data] *)
Inductive Key : Type := cases | recovered | deaths.

(** What the zip-end handler does with the promise returned by [fetchData]:
    - [Resolved d]: [resolve(d)];
    - [Rejected r]: [reject(result)], the recognised entries being [r];
    - [Uncaught]: the handler throws a [TypeError] (indexing an empty
      timeline) before reaching [resolve], so no [Data] is produced. *)
Inductive outcome (D R : Type) : Type :=
| Resolved (d : D)
| Rejected (r : R)
| Uncaught.
Arguments Resolved {D R} d.
Arguments Rejected {D R} r.
Arguments Uncaught {D R}.

Section Pipeline.
Context {JS : JSNumber}.

(** [d3.timeParse("%d.%m.%Y")]: [None] is the [null] of a failed parse *)
Variable parseTime : string -> option Date.

(** A run-time value of type [number | string], or [undefined] (what
    destructuring gives for a cell that the row does not have). *)
Inductive value : Type :=
| undefined
| num (n : number)
| str (s : string).

(** [type CSV = string[][]] *)
Definition CSV : Type := list (list string).

(** [type Timeline = [Date, number][]] *)
Definition TimePoint : Type := (Date * value)%type.
Definition Timeline : Type := list TimePoint.

(** [interface Data]; a field that was never assigned is [None] *)
Record Data : Type := mkData {
  data_cases : option Timeline;
  data_recovered : option Timeline;
  data_deaths : option Timeline
}.

(** [{} as Writable<Data>] *)
Definition empty_data : Data := mkData None None None.

(** [acc[key] = timeline] *)
Definition assign (acc : Data) (key : Key) (timeline : Timeline) : Data :=
  match key with
  | cases => mkData (Some timeline) (data_recovered acc) (data_deaths acc)
  | recovered => mkData (data_cases acc) (Some timeline) (data_deaths acc)
  | deaths => mkData (data_cases acc) (data_recovered acc) (Some timeline)
  end.

(** ** [orZero] *)

(** [const orZero = (value) => { if (typeof value === "string") value =
    Number(value); return Number.isNaN(value) ? 0 : value; }].
    [Number.isNaN] is [false] on anything that is not a number. *)
Definition orZero (v : value) : value :=
  let v' := match v with
            | str s => num (Number s)
            | _ => v
            end in
  match v' with
  | num n => if isNaN n then num zero else v'
  | _ => v'
  end.

(** [sum + x] for a number [sum] and an [x] returned by [orZero]:
    [undefined] converts to [NaN].  ([orZero] never returns a string, see
    [orZero_not_str].) *)
Definition plus (sum : number) (x : value) : number :=
  match x with
  | num n => add sum n
  | undefined => add sum NaN
  | str _ => NaN
  end.

(** ** Series builders (the zip-entry handler) *)

(** The destructuring [[date, value]] of a row *)
Definition cell (row : list string) (i : nat) : value :=
  match at_ row i with
  | Some s => str s
  | None => undefined
  end.

(** [parseTime(date) ?? new Date(0)]; d3 converts its argument to a string
    first, so a missing cell is parsed as the text ["undefined"]. *)
Definition dateOf (row : list string) : Date :=
  let text := match at_ row 0 with
              | Some s => s
              | None => "undefined"
              end in
  match parseTime text with
  | Some d => d
  | None => epoch
  end.

(** [(sum, [, value]) => sum + orZero(value)] *)
Definition add_row (sum : number) (row : list string) : number :=
  plus sum (orZero (cell row 1)).

(** [arr.slice(0, idx + 1).reduce((sum, [, value]) => sum + orZero(value), 0)] *)
Definition prefix_total (arr : CSV) (idx : nat) : number :=
  fold_left add_row (slice arr 0 (Z.of_nat idx + 1)) zero.

(** [arr.map((x, idx, arr) => f x idx arr)] *)
Fixpoint mapi_at (T U : Type) (f : T -> nat -> U) (a : list T) (idx : nat)
  : list U :=
  match a with
  | [] => []
  | x :: rest => f x idx :: mapi_at f rest (S idx)
  end.

Definition mapi (T U : Type) (f : T -> nat -> U) (a : list T) : list U :=
  mapi_at f a 0.

(** The "Epikurve" entry, first revision: the rows after the header, each
    paired with the sum of a fresh prefix. *)
Definition cases_timeline_v1 (csv : CSV) : Timeline :=
  let arr := slice_from csv 1 in
  mapi (fun row idx => (dateOf row, num (prefix_total arr idx))) arr.

(** The "Epikurve" entry, second revision: one pass that carries the
    timeline built so far and the running sum. *)
Definition cases_step_v2 (acc : Timeline * number) (row : list string)
  : Timeline * number :=
  let (timeline, sum) := acc in
  let sum := add_row sum row in
  (timeline ++ [(dateOf row, num sum)], sum).

Definition cases_timeline_v2 (csv : CSV) : Timeline :=
  fst (fold_left cases_step_v2 (slice_from csv 1) ([], zero)).

(** The "GenesenTimeline" and "TodesfaelleTimeline" entries (both
    revisions): values are passed through [orZero] only. *)
Definition plain_timeline (csv : CSV) : Timeline :=
  map (fun row => (dateOf row, orZero (cell row 1))) (slice_from csv 1).

(** A zip entry: its name, and the rows to which [toCSV] resolves (a read
    stream that errors is not part of this model) *)
Record Entry : Type := mkEntry {
  fileName : string;
  rows : CSV
}.

(** The promises pushed on [result], in order, with their resolved values *)
Definition Result : Type := list (Key * Timeline).

(** [zipfile.on("entry", ...)], first revision *)
Definition on_entry_v1 (result : Result) (entry : Entry) : Result :=
  if 0 <=? indexOf (fileName entry) "Epikurve" then
    result ++ [(cases, cases_timeline_v1 (rows entry))]
  else if 0 <=? indexOf (fileName entry) "GenesenTimeline" then
    result ++ [(recovered, plain_timeline (rows entry))]
  else if 0 <=? indexOf (fileName entry) "TodesfaelleTimeline" then
    result ++ [(deaths, plain_timeline (rows entry))]
  else result.

(** [zipfile.on("entry", ...)], second revision *)
Definition on_entry_v2 (result : Result) (entry : Entry) : Result :=
  if 0 <=? indexOf (fileName entry) "Epikurve" then
    result ++ [(cases, cases_timeline_v2 (rows entry))]
  else
    let key :=
      if 0 <=? indexOf (fileName entry) "GenesenTimeline" then Some recovered
      else if 0 <=? indexOf (fileName entry) "TodesfaelleTimeline"
           then Some deaths
           else None in
    match key with
    | Some key => result ++ [(key, plain_timeline (rows entry))]
    | None => result
    end.

(** ** Timeline alignment (the zip-end handler) *)

(** [a.map(f)] for an [f] that may throw: the first throw aborts the map *)
Fixpoint map_throw (T U : Type) (f : T -> option U) (a : list T)
  : option (list U) :=
  match a with
  | [] => Some []
  | x :: rest =>
      match f x with
      | None => None
      | Some y =>
          match map_throw f rest with
          | None => None
          | Some ys => Some (y :: ys)
          end
      end
  end.

(** [timeline[0][0].getTime()]; [None] is the [TypeError] of indexing
    [undefined] when the timeline is empty *)
Definition first_time (entry : Key * Timeline) : option Z :=
  match at_ (snd entry) 0 with
  | Some (date, _) => Some date
  | None => None
  end.

(** [timeline[timeline.length - 1][0].getTime()] *)
Definition last_time (entry : Key * Timeline) : option Z :=
  match last_elem (snd entry) with
  | Some (date, _) => Some date
  | None => None
  end.

(** [Math.max(...csvs.map(([, timeline]) => timeline[0][0].getTime()))]
    (both revisions) *)
Definition firstDate_of (csvs : Result) : option bound :=
  match map_throw first_time csvs with
  | Some firsts => Some (Math_max firsts)
  | None => None
  end.

(** [Math.min(...csvs.map((timeline) =>
      timeline[1][timeline[1].length - 1][0].getTime()))] *)
Definition lastDate_v1 (csvs : Result) : option bound :=
  match map_throw last_time csvs with
  | Some lasts => Some (Math_min lasts)
  | None => None
  end.

(** [csvs.reduce((date, [, timeline]) =>
      timeline[timeline.length - 1][0] < date
        ? timeline[timeline.length - 1][0] : date, new Date())];
    [now] is the value of [new Date()]. *)
Definition lastDate_v2 (now : Date) (csvs : Result) : option Date :=
  fold_left
    (fun date entry =>
       match date, last_time entry with
       | Some date, Some last => Some (if last <? date then last else date)
       | _, _ => None
       end)
    csvs (Some now).

(** The body of the final [csvs.reduce], first revision: the trailing edge
    is found with the strict [date.getTime() < lastDate]. *)
Definition truncate_v1 (firstDate lastDate : bound) (timeline : Timeline)
  : Timeline :=
  let firstIndex :=
    findIndex (fun p => geb_bound (fst p) firstDate) timeline in
  let reverseLastIndex :=
    findIndex (fun p => ltb_bound (fst p) lastDate)
              (rev (slice_from timeline 0)) in
  let lastIndex := len timeline - 1 - reverseLastIndex in
  slice timeline firstIndex (lastIndex + 1).

(** The body of the final [csvs.reduce], second revision: the trailing
    edge is found with the inclusive [date <= lastDate]. *)
Definition truncate_v2 (firstDate : bound) (lastDate : Date)
           (timeline : Timeline) : Timeline :=
  let firstIndex :=
    findIndex (fun p => geb_bound (fst p) firstDate) timeline in
  let reverseLastIndex :=
    findIndex (fun p => fst p <=? lastDate)
              (rev (slice_from timeline 0)) in
  let lastIndex := len timeline - 1 - reverseLastIndex in
  slice timeline firstIndex (lastIndex + 1).

(** [csvs.reduce((acc, [key, timeline]) => { ...; acc[key] = ...; return
    acc; }, {})] *)
Definition collect (cut : Timeline -> Timeline) (csvs : Result) : Data :=
  fold_left (fun acc entry => assign acc (fst entry) (cut (snd entry)))
            csvs empty_data.

(** [zipfile.on("end", ...)], first revision *)
Definition on_end_v1 (result : Result) : outcome Data Result :=
  if len result =? 3 then
    match firstDate_of result with
    | None => Uncaught
    | Some firstDate =>
        match lastDate_v1 result with
        | None => Uncaught
        | Some lastDate =>
            Resolved (collect (truncate_v1 firstDate lastDate) result)
        end
    end
  else Rejected result.

(** [zipfile.on("end", ...)], second revision *)
Definition on_end_v2 (now : Date) (result : Result) : outcome Data Result :=
  if len result =? 3 then
    match firstDate_of result with
    | None => Uncaught
    | Some firstDate =>
        match lastDate_v2 now result with
        | None => Uncaught
        | Some lastDate =>
            Resolved (collect (truncate_v2 firstDate lastDate) result)
        end
    end
  else Rejected result.

(** [fetchData]: the entry handler runs once per zip entry, then the end
    handler settles the promise. *)
Definition fetchData_v1 (entries : list Entry) : outcome Data Result :=
  on_end_v1 (fold_left on_entry_v1 entries []).

Definition fetchData_v2 (now : Date) (entries : list Entry)
  : outcome Data Result :=
  on_end_v2 now (fold_left on_entry_v2 entries []).

(** The aligner applied to one timeline per key *)
Definition align_v1 (c r d : Timeline) : outcome Data Result :=
  on_end_v1 [(cases, c); (recovered, r); (deaths, d)].

Definition align_v2 (now : Date) (c r d : Timeline) : outcome Data Result :=
  on_end_v2 now [(cases, c); (recovered, r); (deaths, d)].

(** The guard that opens [draw]:
    [if (cases.length !== recovered.length ||
         cases.length !== deaths.length) throw Error("lengths unequal")].
    [true] when [draw] goes past it. *)
Definition draw_guard (data : Data) : bool :=
  match data_cases data, data_recovered data, data_deaths data with
  | Some c, Some r, Some d => (len c =? len r) && (len c =? len d)
  | _, _, _ => false
  end.

End Pipeline.

Arguments undefined {JS}.
Arguments empty_data {JS}.

(** ** An executable reading of the number primitives

    Integer-valued numbers, which is what the counts of the data set are
    (doubles are exact on integers below 2^53).  [Number] is the language's
    string-to-number conversion restricted to what a trimmed count cell can
    hold: the empty text is [0], an optionally signed run of decimal digits
    is its value, and every other text is read as [NaN].  This instance
    serves to run the builders and the aligner on fixtures; no general
    statement depends on it. *)
Inductive intnum : Type :=
| NotANumber
| Int (z : Z).

Definition digit_of (c : ascii) : option Z :=
  let n := Z.of_nat (nat_of_ascii c) in
  if (48 <=? n) && (n <=? 57) then Some (n - 48) else None.

Fixpoint digits_value (s : string) (acc : Z) : option Z :=
  match s with
  | EmptyString => Some acc
  | String c rest =>
      match digit_of c with
      | Some d => digits_value rest (10 * acc + d)
      | None => None
      end
  end.

Definition unsigned_value (s : string) : option Z :=
  match s with
  | EmptyString => None
  | _ => digits_value s 0
  end.

Definition Number_int (s : string) : intnum :=
  match s with
  | EmptyString => Int 0
  | String "-" rest =>
      match unsigned_value rest with
      | Some z => Int (- z)
      | None => NotANumber
      end
  | String "+" rest =>
      match unsigned_value rest with
      | Some z => Int z
      | None => NotANumber
      end
  | _ =>
      match unsigned_value s with
      | Some z => Int z
      | None => NotANumber
      end
  end.

Definition add_int (a b : intnum) : intnum :=
  match a, b with
  | Int x, Int y => Int (x + y)
  | _, _ => NotANumber
  end.

Definition isNaN_int (a : intnum) : bool :=
  match a with
  | NotANumber => true
  | Int _ => false
  end.

Definition IntNumber : JSNumber :=
  {| number := intnum;
     zero := Int 0;
     NaN := NotANumber;
     add := add_int;
     isNaN := isNaN_int;
     Number := Number_int |}.

(** A stand-in for [d3.timeParse] on fixtures: the day of the month of a
    ["dd.03.2020"] cell, counted in days. *)
Definition parseDay (s : string) : option Date :=
  match s with
  | String a (String b (String "." _)) =>
      match digit_of a, digit_of b with
      | Some x, Some y => Some (10 * x + y)
      | _, _ => None
      end
  | _ => None
  end.

(** A timeline with one point per listed day and a constant value *)
Definition days (JS : JSNumber) (ds : list Z) : Timeline :=
  map (fun d => (d, num zero)) ds.

(** The dates of a timeline, in order *)
Definition dates (JS : JSNumber) (t : Timeline) : list Date := map fst t.

(** ** The running sum as the specification words it *)

Section RunningSum.
Context {JS : JSNumber}.



End RunningSum.

(** ** Notions used to state the properties *)

Section Notions.
Context {JS : JSNumber}.

(** Dates never decrease along the timeline. *)
Fixpoint ascending (t : Timeline) : bool :=
  match t with
  | [] => true
  | p :: rest =>
      match rest with
      | [] => true
      | q :: _ => (fst p <=? fst q) && ascending rest
      end
  end.

(** The same as a relation: every later point carries a date at least as
    late. *)
Inductive Ascending : Timeline -> Prop :=
| Ascending_nil : Ascending []
| Ascending_cons (p : TimePoint) (t : Timeline) :
    Forall (fun q => fst p <= fst q) t -> Ascending t -> Ascending (p :: t).

(** The point lies in the closed window [[firstDate, lastDate]]. *)
Definition in_window (firstDate lastDate : Date) (p : TimePoint) : bool :=
  (firstDate <=? fst p) && (fst p <=? lastDate).

(** The point lies in the half-open window [[firstDate, lastDate)]. *)
Definition before_end (firstDate lastDate : Date) (p : TimePoint) : bool :=
  (firstDate <=? fst p) && (fst p <? lastDate).

(** The truncation of both revisions, with the test of the trailing edge
    left open. *)
Definition truncate_with (firstDate : bound) (within : TimePoint -> bool)
           (timeline : Timeline) : Timeline :=
  let firstIndex :=
    findIndex (fun p => geb_bound (fst p) firstDate) timeline in
  let reverseLastIndex :=
    findIndex within (rev (slice_from timeline 0)) in
  let lastIndex := len timeline - 1 - reverseLastIndex in
  slice timeline firstIndex (lastIndex + 1).

(** The entry was recognised by one of the three name tests. *)
Definition recognised (entry : Entry) : bool :=
  (0 <=? indexOf (fileName entry) "Epikurve")
  || (0 <=? indexOf (fileName entry) "GenesenTimeline")
  || (0 <=? indexOf (fileName entry) "TodesfaelleTimeline").
End Notions.

(** [n] consecutive integers from [a] *)
Fixpoint zseq (a : Z) (n : nat) : list Z :=
  match n with
  | O => []
  | S m => a :: zseq (a + 1) m
  end.

(** One point per calendar day: the dates are those of consecutive days,
    [day k] being the timestamp that [parseTime] gives to day number [k]. *)
Definition daily (JS : JSNumber) (day : Z -> Date) (t : Timeline) : Prop :=
  exists a, dates t = map day (zseq a (List.length t)).

(** ** Fixtures *)

(** An integer as a timeline value on the integer reading *)
Definition count (z : Z) : value (JS := IntNumber) :=
  num (JS := IntNumber) (Int z).

(** Fixture: a header row followed by the daily increments 5, 3, 0, 7. *)
Definition increments : CSV :=
  [ ["Datum"; "Faelle"];
    ["01.03.2020"; "5"]; ["02.03.2020"; "3"];
    ["03.03.2020"; "0"]; ["04.03.2020"; "7"] ].



(** Fixture: an archive in which only two entries are recognised. *)
Definition two_recognised : list Entry :=
  [ mkEntry "Epikurve.csv" increments;
    mkEntry "GenesenTimeline.csv" increments;
    mkEntry "Bundesland.csv" increments ].

(** Timelines over days 1-10, 3-12 and 1-8 *)
Definition days_1_10 : Timeline := days IntNumber (zseq 1 10).
Definition days_3_12 : Timeline := days IntNumber (zseq 3 10).
Definition days_1_8 : Timeline := days IntNumber (zseq 1 8).

(** Timelines with no common date: days 1-5 and days 10-15 *)
Definition days_1_5 : Timeline := days IntNumber (zseq 1 5).
Definition days_10_15 : Timeline := days IntNumber (zseq 10 6).

(** Three days, and a single late day *)
Definition days_1_3 : Timeline := days IntNumber [1; 2; 3].
Definition day_3 : Timeline := days IntNumber [3].
Definition day_10 : Timeline := days IntNumber [10].

(** On the fixtures a date is the number of its day. *)
Definition day_number (k : Z) : Date := k.

(** ** [toCSV]: from the chunks of a read stream to rows of cells *)

(** A [string] is read as a run of code units below 256.  Among these,
    [String.prototype.trim] removes TAB, LF, VT, FF, CR, SPACE and NBSP. *)
Definition is_white (c : ascii) : bool :=
  let n := nat_of_ascii c in
  ((9 <=? n)%nat && (n <=? 13)%nat) || (n =? 32)%nat || (n =? 160)%nat.

Fixpoint trimStart (s : string) : string :=
  match s with
  | EmptyString => EmptyString
  | String c rest => if is_white c then trimStart rest else s
  end.

Fixpoint trimEnd (s : string) : string :=
  match s with
  | EmptyString => EmptyString
  | String c rest =>
      match trimEnd rest with
      | EmptyString => if is_white c then EmptyString else String c EmptyString
      | kept => String c kept
      end
  end.

(** [s.trim()] *)
Definition trim (s : string) : string := trimEnd (trimStart s).

(** [s.split(sep)] for a separator of one character: never empty, the
    empty text gives one empty piece. *)
Fixpoint split_on (sep : ascii) (s : string) : list string :=
  match s with
  | EmptyString => [EmptyString]
  | String c rest =>
      if Ascii.eqb c sep then EmptyString :: split_on sep rest
      else match split_on sep rest with
           | piece :: pieces => String c piece :: pieces
           | [] => [String c EmptyString]
           end
  end.

(** The line feed and the semicolon *)
Definition LF : ascii := ascii_of_nat 10.
Definition semicolon : ascii := ascii_of_nat 59.

(** The body of the ["data"] handler: what one chunk appends to [csvData].
    [csvString.trim().split("\n").map((row) =>
       row.trim().split(";").map((cell) => cell.trim()))] *)
Definition parse_chunk (csvString : string) : list (list string) :=
  map (fun row => map trim (split_on semicolon (trim row)))
      (split_on LF (trim csvString)).

(** [toCSV] on a stream that delivers [chunks] and ends: every ["data"]
    event pushes the rows of its chunk on [csvData]. *)
Definition toCSV (chunks : list string) : list (list string) :=
  flat_map parse_chunk chunks.

(** The text of rows of cells: cells joined by [;], rows by line feeds. *)
Fixpoint join (sep : ascii) (pieces : list string) : string :=
  match pieces with
  | [] => EmptyString
  | [piece] => piece
  | piece :: rest => piece ++ String sep (join sep rest)
  end.

Definition unparse (rows : list (list string)) : string :=
  join LF (map (join semicolon) rows).

(** The text is empty or starts with a character that is not white space. *)
Definition starts_clean (s : string) : bool :=
  match s with
  | EmptyString => true
  | String c _ => negb (is_white c)
  end.

(** The text is empty or ends with a character that is not white space. *)
Fixpoint ends_clean (s : string) : bool :=
  match s with
  | EmptyString => true
  | String c EmptyString => negb (is_white c)
  | String _ rest => ends_clean rest
  end.

(** How often the character occurs in the text *)
Fixpoint count_char (c : ascii) (s : string) : nat :=
  match s with
  | EmptyString => O
  | String d rest =>
      if Ascii.eqb d c then S (count_char c rest) else count_char c rest
  end.

(** The character occurs in the text. *)
Fixpoint occurs (c : ascii) (s : string) : bool :=
  match s with
  | EmptyString => false
  | String d rest => Ascii.eqb d c || occurs c rest
  end.

(** A cell as [toCSV] leaves it: trimmed, without separator or line feed. *)
Definition clean_cell (cell : string) : bool :=
  String.eqb (trim cell) cell && negb (occurs semicolon cell)
  && negb (occurs LF cell).

(** ** The stacked layers of [draw] *)

(** The subtraction of the host numbers *)
Class JSMinus (JS : JSNumber) : Type := {
  subtract : number -> number -> number
}.

Definition sub_int (a b : intnum) : intnum :=
  match a, b with
  | Int x, Int y => Int (x - y)
  | _, _ => NotANumber
  end.

Definition IntMinus : JSMinus IntNumber := @Build_JSMinus IntNumber sub_int.

Section Layers.
Context {JS : JSNumber} {JM : JSMinus JS}.

(** The conversion to a number that [-] applies to its operands *)
Definition to_number (v : value) : number :=
  match v with
  | undefined => NaN
  | num n => n
  | str s => Number s
  end.

(** [(a, idx) => f a idx] mapped over an array, for an [f] that may throw *)
Fixpoint mapi_throw (T U : Type) (f : T -> nat -> option U) (a : list T)
         (idx : nat) : option (list U) :=
  match a with
  | [] => Some []
  | x :: rest =>
      match f x idx with
      | None => None
      | Some y =>
          match mapi_throw f rest (S idx) with
          | None => None
          | Some ys => Some (y :: ys)
          end
      end
  end.

(** [([date, cases], idx) =>
      [date, cases - recovered[idx][1] - deaths[idx][1]]];
    [None] is the [TypeError] of indexing past the end of [recovered] or
    [deaths]. *)
Definition active_point (recovered_ deaths_ : Timeline) (p : TimePoint)
           (idx : nat) : option TimePoint :=
  match at_ recovered_ idx, at_ deaths_ idx with
  | Some r, Some d =>
      Some (fst p,
            num (subtract (subtract (to_number (snd p)) (to_number (snd r)))
                          (to_number (snd d))))
  | _, _ => None
  end.

(** [const active = cases.map(...)] *)
Definition active_of (cases_ recovered_ deaths_ : Timeline)
  : option Timeline :=
  mapi_throw (active_point recovered_ deaths_) cases_ 0.

(** [timeline.forEach(([, value], idx) => (sum[idx] += value))]; past the
    end of [sum] the slot is [undefined], which [+=] reads as NaN, and the
    assignment extends the array. *)
Fixpoint add_values (sum : list number) (timeline : Timeline) : list number :=
  match timeline with
  | [] => sum
  | p :: rest =>
      match sum with
      | s :: sum' => plus s (snd p) :: add_values sum' rest
      | [] => plus NaN (snd p) :: add_values [] rest
      end
  end.

(** [timelines.slice(0, idx).reduce((sum, [timeline]) => {...; return sum},
      Array(numBars).fill(0))] *)
Definition offset_of (timelines : list Timeline) (idx numBars : nat)
  : list number :=
  fold_left add_values (firstn idx timelines) (repeat zero numBars).

End Layers.

(** ** [draw], from its guard to [active] *)

Section Draw.
Context {JS : JSNumber} {JM : JSMinus JS}.

(** [value >= value], the test by which [d3.extent] takes a value up: it
    passes over [undefined], and NaN does not compare with itself. *)
Definition comparable (v : value) : bool :=
  match v with
  | undefined => false
  | num n => negb (isNaN n)
  | str _ => true
  end.

(** How far [draw] gets: the [Error] it throws, the [TypeError] of reading
    a property of [undefined], or [active] once it is computed. *)
Inductive draw_result : Type :=
| Throws (message : string)
| ThrowsTypeError
| Computes (active : Timeline).

(** [draw] up to [const active = ...]: the guard on the lengths, the
    extent of the dates of [cases] (every date of a timeline is a valid
    date, so the extent is missing only for an empty [cases]), the extent
    of the values of [cases], then [active]. *)
Definition draw_active (data : Data) : draw_result :=
  match data_cases data, data_recovered data, data_deaths data with
  | Some c, Some r, Some d =>
      if negb (draw_guard data) then Throws "lengths unequal"
      else
        match c with
        | [] => Throws "date error"
        | _ :: _ =>
            if negb (existsb (fun p => comparable (snd p)) c)
            then Throws "value error"
            else
              match active_of c r d with
              | Some a => Computes a
              | None => ThrowsTypeError
              end
        end
  | _, _, _ => ThrowsTypeError
  end.
End Draw.

(** ** Further notions *)

Section MoreNotions.
Context {JS : JSNumber}.

(** [data[key]] *)
Definition field (key : Key) (data : Data) : option Timeline :=
  match key with
  | cases => data_cases data
  | recovered => data_recovered data
  | deaths => data_deaths data
  end.

(** [value + o] for a timeline value and a number *)
Definition plus_left (x : value) (o : number) : number :=
  match x with
  | num n => add n o
  | undefined => add NaN o
  | str _ => NaN
  end.

(** The arguments that the [outerRadius] accessor hands to the scale:
    [value + offset[idx]] for each point of the layer; an offset past the
    end of the array is [undefined], which [+] reads as NaN. *)
Fixpoint outer_values (offset : list number) (timeline : Timeline)
  : list number :=
  match timeline with
  | [] => []
  | p :: rest =>
      match offset with
      | o :: offset' => plus_left (snd p) o :: outer_values offset' rest
      | [] => plus_left (snd p) NaN :: outer_values [] rest
      end
  end.

(** [part] is a run of consecutive points of [whole]. *)
Definition segment_of (part whole : Timeline) : Prop :=
  exists before after, whole = before ++ part ++ after.
End MoreNotions.

(** The text holds [needle] as a substring. *)
Definition contains (s needle : string) : Prop :=
  exists before after, s = (before ++ needle ++ after)%string.

(** One bar of the chart on the integer reading: its date and the counts of
    cases, recovered and deaths. *)
Record bar : Type := mkBar {
  bar_date : Date;
  bar_cases : Z;
  bar_recovered : Z;
  bar_deaths : Z
}.

Definition cases_of (bars : list bar) : Timeline :=
  map (fun b => (bar_date b, count (bar_cases b))) bars.
Definition recovered_of (bars : list bar) : Timeline :=
  map (fun b => (bar_date b, count (bar_recovered b))) bars.
Definition deaths_of (bars : list bar) : Timeline :=
  map (fun b => (bar_date b, count (bar_deaths b))) bars.
Definition active_bars (bars : list bar) : Timeline :=
  map (fun b => (bar_date b,
                 count (bar_cases b - bar_recovered b - bar_deaths b))) bars.

(** [Number.MAX_SAFE_INTEGER]: a sum or a difference of integers is exact
    in doubles when the operands and the result are within it. *)
Definition MAX_SAFE_INTEGER : Z := 2 ^ 53 - 1.

(** The counts of a bar as an epidemic has them: none is negative, the
    recovered and the dead are among the cases, and the cases are a safe
    integer.  Every number that [draw] computes for such a bar is an
    integer between 0 and the cases. *)
Definition counted (b : bar) : Prop :=
  0 <= bar_recovered b /\ 0 <= bar_deaths b
  /\ bar_recovered b + bar_deaths b <= bar_cases b
  /\ bar_cases b <= MAX_SAFE_INTEGER.

(** An integer between [lo] and [hi] *)
Definition within (lo hi : Z) (n : intnum) : Prop :=
  match n with
  | Int z => lo <= z <= hi
  | NotANumber => False
  end.

(** The value of a point is an integer between 0 and the cases of its bar. *)
Definition inside_bar (b : bar) (p : TimePoint (JS := IntNumber)) : Prop :=
  match snd p with
  | num n => within 0 (bar_cases b) n
  | _ => False
  end.

(** Fixture: three bars of counts *)
Definition three_bars : list bar :=
  [ mkBar 1 10 3 1; mkBar 2 12 5 1; mkBar 3 15 9 2 ].

(** * Properties *)

(** ** Arrays *)

Section ArrayFacts.
Variable A : Type.
Implicit Types a : list A.

Lemma len_nonneg a : 0 <= len a.
Proof. unfold len. lia. Qed.

Lemma relative_nonneg size i : 0 <= i -> relative size i = Z.min i size.
Proof. intros Hi. unfold relative. destruct (i <? 0) eqn:E; lia. Qed.

Lemma relative_neg size i : i < 0 -> relative size i = Z.max (size + i) 0.
Proof. intros Hi. unfold relative. destruct (i <? 0) eqn:E; lia. Qed.

(** Inside the array, [slice] is [skipn] followed by [firstn]. *)
Lemma slice_inside a (s e : Z) :
  0 <= s -> 0 <= e ->
  slice a s e =
  firstn (Z.to_nat (Z.min e (len a)) - Z.to_nat (Z.min s (len a)))
         (skipn (Z.to_nat (Z.min s (len a))) a).
Proof.
  intros Hs He. unfold slice. rewrite !relative_nonneg by assumption.
  f_equal. pose proof (len_nonneg a). lia.
Qed.


Lemma slice_from_0 a : slice_from a 0 = a.
Proof.
  unfold slice_from. pose proof (len_nonneg a).
  rewrite slice_inside by lia.
  rewrite Z.min_id, Z.min_l by lia. simpl skipn.
  apply firstn_all2. unfold len. lia.
Qed.

Lemma slice_from_1 a : slice_from a 1 = tl a.
Proof.
  unfold slice_from. pose proof (len_nonneg a).
  rewrite slice_inside by lia. rewrite Z.min_id.
  destruct a as [|x a]; [reflexivity|].
  unfold len in *. simpl List.length in *.
  rewrite Z.min_l by lia. simpl skipn. simpl tl.
  apply firstn_all2. lia.
Qed.

Lemma slice_prefix a (i : nat) :
  slice a 0 (Z.of_nat i + 1) = firstn (S i) a.
Proof.
  pose proof (len_nonneg a).
  rewrite slice_inside by lia.
  rewrite (Z.min_l 0) by lia. simpl skipn. unfold len in *.
  destruct (Z.le_ge_cases (Z.of_nat i + 1) (Z.of_nat (List.length a))).
  - rewrite Z.min_l by lia. f_equal. lia.
  - rewrite Z.min_r by lia. rewrite !firstn_all2; auto; lia.
Qed.
End ArrayFacts.

(** ** [orZero] and the series builders *)

Section BuilderFacts.
Context {JS : JSNumber}.
Variable parseTime : string -> option Date.

Lemma orZero_str s :
  orZero (str s) = num (if isNaN (Number s) then zero else Number s).
Proof. unfold orZero. destruct (isNaN (Number s)); reflexivity. Qed.

Lemma orZero_not_str v s : orZero v <> str s.
Proof.
  destruct v as [|n|t]; unfold orZero; try discriminate;
    match goal with |- context [isNaN ?x] => destruct (isNaN x) end;
    discriminate.
Qed.

Lemma mapi_at_length (T U : Type) (f : T -> nat -> U) a k :
  List.length (mapi_at f a k) = List.length a.
Proof. revert k. induction a; simpl; intros; [reflexivity|]. now rewrite IHa. Qed.

Lemma mapi_at_ext (T U : Type) (f g : T -> nat -> U) a k :
  (forall x i, (k <= i)%nat -> f x i = g x i) ->
  mapi_at f a k = mapi_at g a k.
Proof.
  revert k. induction a as [|x a IH]; simpl; intros k Hfg; [reflexivity|].
  rewrite Hfg by lia. f_equal. apply IH. intros; apply Hfg; lia.
Qed.

(** The accumulating pass, started after a prefix [pre] of the rows with
    the sum of that prefix, produces for each remaining row what the
    per-index pass computes from scratch. *)
Lemma accumulate_from pre rest (built : Timeline) :
  fold_left (cases_step_v2 parseTime) rest (built, fold_left add_row pre zero) =
  (built ++
     mapi_at (fun row idx =>
                (dateOf parseTime row,
                 num (fold_left add_row (firstn (S idx) (pre ++ rest)) zero)))
             rest (List.length pre),
   fold_left add_row (pre ++ rest) zero).
Proof.
  revert pre built. induction rest as [|row rest IH]; intros pre built.
  - simpl. now rewrite !app_nil_r.
  - assert (Hpre : firstn (S (List.length pre)) (pre ++ row :: rest)
                   = pre ++ [row]).
    { replace (S (List.length pre)) with (List.length (pre ++ [row]))
        by (rewrite length_app; simpl; lia).
      change (pre ++ row :: rest) with (pre ++ [row] ++ rest).
      rewrite app_assoc, firstn_app, firstn_all, Nat.sub_diag.
      simpl firstn. now rewrite app_nil_r. }
    cbn [fold_left mapi_at]. rewrite Hpre.
    replace (cases_step_v2 parseTime (built, fold_left add_row pre zero) row)
      with (built ++ [(dateOf parseTime row,
                       num (fold_left add_row (pre ++ [row]) zero))],
            fold_left add_row (pre ++ [row]) zero)
      by (rewrite fold_left_app; reflexivity).
    rewrite IH. rewrite <- !app_assoc. cbn [app].
    rewrite length_app. cbn [List.length].
    replace (List.length pre + 1)%nat with (S (List.length pre)) by lia.
    reflexivity.
Qed.

Lemma cases_timeline_v1_unfold csv :
  cases_timeline_v1 parseTime csv =
  mapi_at (fun row idx =>
             (dateOf parseTime row,
              num (fold_left add_row (firstn (S idx) (tl csv)) zero)))
          (tl csv) 0.
Proof.
  unfold cases_timeline_v1, mapi. rewrite slice_from_1.
  apply mapi_at_ext. intros row i _. unfold prefix_total.
  now rewrite slice_prefix.
Qed.

Lemma cases_timelines_agree csv :
  cases_timeline_v1 parseTime csv = cases_timeline_v2 parseTime csv.
Proof.
  rewrite cases_timeline_v1_unfold.
  unfold cases_timeline_v2. rewrite slice_from_1.
  pose proof (accumulate_from [] (tl csv) []) as H.
  cbn [app List.length] in H.
  change (fold_left add_row [] zero) with zero in H.
  unfold Timeline in *. rewrite H. reflexivity.
Qed.




End BuilderFacts.

(** ** Searching and cutting *)

Section SearchFacts.
Variable A : Type.
Implicit Types a : list A.

Lemma findIndex_at_none (p : A -> bool) a i :
  Forall (fun x => p x = false) a -> findIndex_at p a i = -1.
Proof.
  intros H. revert i. induction H as [|x a Hx _ IH]; intros i; simpl.
  - reflexivity.
  - rewrite Hx. apply IH.
Qed.

Lemma findIndex_at_hit (p : A -> bool) pre x post i :
  Forall (fun y => p y = false) pre -> p x = true ->
  findIndex_at p (pre ++ x :: post) i = i + len pre.
Proof.
  intros H Hx. revert i. induction H as [|y pre Hy _ IH]; intros i; simpl.
  - rewrite Hx. unfold len. simpl. lia.
  - rewrite Hy, IH. unfold len. simpl List.length. lia.
Qed.

(** Cutting out the middle of three consecutive pieces. *)
Lemma slice_middle (l1 l2 l3 : list A) :
  slice (l1 ++ l2 ++ l3) (len l1) (len l1 + len l2) = l2.
Proof.
  pose proof (len_nonneg l1). pose proof (len_nonneg l2).
  pose proof (len_nonneg l3).
  assert (Hlen : len (l1 ++ l2 ++ l3) = len l1 + len l2 + len l3).
  { unfold len. rewrite !length_app. lia. }
  rewrite slice_inside by lia. rewrite Hlen.
  rewrite !Z.min_l by lia.
  replace (Z.to_nat (len l1)) with (List.length l1) by (unfold len; lia).
  replace (Z.to_nat (len l1 + len l2) - List.length l1)%nat
    with (List.length l2) by (unfold len; lia).
  rewrite skipn_app, skipn_all, Nat.sub_diag. simpl.
  rewrite firstn_app, firstn_all, Nat.sub_diag. simpl.
  apply app_nil_r.
Qed.

Lemma filter_none (p : A -> bool) a :
  Forall (fun x => p x = false) a -> filter p a = [].
Proof.
  induction 1 as [|x a Hx _ IH]; simpl; [reflexivity|]. now rewrite Hx.
Qed.

Lemma filter_all (p : A -> bool) a :
  Forall (fun x => p x = true) a -> filter p a = a.
Proof.
  induction 1 as [|x a Hx _ IH]; simpl; [reflexivity|].
  rewrite Hx. now f_equal.
Qed.

Lemma Forall_filter_pred (p : A -> bool) a :
  Forall (fun x => p x = true) (filter p a).
Proof. apply Forall_forall. intros x Hx. now apply filter_In in Hx. Qed.

Lemma Forall_filter_keep (P : A -> Prop) (p : A -> bool) a :
  Forall P a -> Forall P (filter p a).
Proof.
  rewrite !Forall_forall. intros H x Hx. apply filter_In in Hx.
  now apply H.
Qed.
End SearchFacts.

(** ** Truncation of an ascending timeline *)

Section TruncateFacts.
Context {JS : JSNumber}.
Implicit Types t : Timeline.
Implicit Types p q : TimePoint.

Lemma ascending_Ascending t : ascending t = true -> Ascending t.
Proof.
  induction t as [|p t IH]; intros H; [constructor|].
  destruct t as [|q t].
  - constructor; constructor.
  - cbn [ascending] in H. apply andb_true_iff in H as [Hpq Hrest].
    apply Z.leb_le in Hpq. specialize (IH Hrest).
    constructor; [|assumption].
    inversion IH as [|? ? Hq _]; subst.
    constructor; [assumption|].
    eapply Forall_impl; [|exact Hq]. simpl. intros; lia.
Qed.

Lemma Ascending_filter (f : TimePoint -> bool) t :
  Ascending t -> Ascending (filter f t).
Proof.
  induction 1 as [|p t Hp _ IH]; simpl; [constructor|].
  destruct (f p); [|assumption].
  constructor; [|assumption]. now apply Forall_filter_keep.
Qed.

(** A test that holds of every earlier date once it holds of a date cuts
    an ascending timeline in two. *)
Lemma Ascending_split (f : TimePoint -> bool) t :
  (forall p q, fst p <= fst q -> f q = true -> f p = true) ->
  Ascending t ->
  t = filter f t ++ filter (fun p => negb (f p)) t.
Proof.
  intros Hdown. induction 1 as [|p t Hp _ IH]; [reflexivity|].
  simpl. destruct (f p) eqn:E; simpl.
  - now f_equal.
  - assert (Hno : Forall (fun q => f q = false) t).
    { eapply Forall_impl; [|exact Hp]. simpl. intros q Hq.
      destruct (f q) eqn:Eq; [|reflexivity].
      rewrite (Hdown p q Hq Eq) in E. discriminate. }
    rewrite (filter_none _ Hno). simpl. f_equal.
    symmetry. apply filter_all.
    eapply Forall_impl; [|exact Hno]. simpl. now intros q ->.
Qed.

Lemma filter_filter_and (f g : TimePoint -> bool) t :
  filter g (filter f t) = filter (fun p => f p && g p) t.
Proof.
  induction t as [|p t IH]; [reflexivity|]. simpl.
  destruct (f p); simpl; [destruct (g p)|]; now rewrite IH.
Qed.

(** On an ascending timeline that reaches [firstDate] and has a point
    passing the trailing test, the two scans cut out exactly the points
    from [firstDate] on that pass the trailing test. *)
Lemma truncate_with_filter (firstDate : Date) (within : TimePoint -> bool) t :
  Ascending t ->
  (forall p q, fst p <= fst q -> within q = true -> within p = true) ->
  (forall p, fst p < firstDate -> within p = true) ->
  (exists p, In p t /\ firstDate <= fst p) ->
  (exists p, In p t /\ within p = true) ->
  truncate_with (Finite firstDate) within t =
  filter (fun p => (firstDate <=? fst p) && within p) t.
Proof.
  intros Hasc Hdown Hlow [pf [Hpf Hpf']] [pw [Hpw Hpw']].
  set (early := fun p : TimePoint => fst p <? firstDate).
  set (late := fun p : TimePoint => negb (early p)).
  assert (Hlate : forall p, late p = (firstDate <=? fst p)).
  { intros p. unfold late, early.
    destruct (fst p <? firstDate) eqn:E1, (firstDate <=? fst p) eqn:E2;
      simpl; try reflexivity; lia. }
  pose proof (Ascending_split early) as S1.
  specialize (S1 t). fold late in S1.
  assert (Hearly_down : forall p q, fst p <= fst q ->
                                    early q = true -> early p = true).
  { unfold early. intros p q Hpq Hq. apply Z.ltb_lt in Hq.
    apply Z.ltb_lt. lia. }
  specialize (S1 Hearly_down Hasc).
  set (A := filter early t) in *. set (R := filter late t) in *.
  assert (HR : Ascending R) by (apply Ascending_filter; assumption).
  pose proof (Ascending_split within Hdown HR) as S2.
  set (B := filter within R) in *.
  set (C := filter (fun p => negb (within p)) R) in *.
  assert (HA : Forall (fun p => early p = true) A)
    by apply Forall_filter_pred.
  assert (HRl : Forall (fun p => late p = true) R)
    by apply Forall_filter_pred.
  assert (HB : Forall (fun p => within p = true) B)
    by apply Forall_filter_pred.
  assert (HC : Forall (fun p => negb (within p) = true) C)
    by apply Forall_filter_pred.
  assert (HAw : Forall (fun p => within p = true) A).
  { eapply Forall_impl; [|exact HA]. simpl. unfold early. intros p Hp.
    apply Hlow. now apply Z.ltb_lt. }
  (* the result is the middle piece *)
  assert (Hres : filter (fun p => (firstDate <=? fst p) && within p) t = B).
  { unfold B, R. rewrite filter_filter_and. apply filter_ext.
    intros p. now rewrite Hlate. }
  rewrite Hres.
  assert (Ht : t = A ++ B ++ C) by (rewrite <- S2; exact S1).
  (* the forward scan stops at the first point of [R] *)
  assert (HRne : R <> []).
  { intros HRnil. assert (Hin : In pf R).
    { apply filter_In. split; [assumption|]. rewrite Hlate.
      now apply Z.leb_le. }
    rewrite HRnil in Hin. inversion Hin. }
  assert (Hfirst : findIndex (fun p => geb_bound (fst p) (Finite firstDate)) t
                   = len A).
  { unfold findIndex. rewrite S1 at 1.
    destruct R as [|x R'] eqn:ER; [congruence|].
    rewrite findIndex_at_hit; [lia| |].
    - eapply Forall_impl; [|exact HA]. simpl. unfold early.
      intros p Hp. apply Z.ltb_lt in Hp. apply Z.leb_gt. lia.
    - simpl. apply Forall_inv in HRl.
      now rewrite <- Hlate. }
  (* the backward scan stops at the last point of [A ++ B] *)
  assert (HABne : A ++ B <> []).
  { intros Hnil. apply app_eq_nil in Hnil as [HAnil HBnil].
    assert (Hin : In pw (A ++ B ++ C)) by (rewrite <- Ht; assumption).
    rewrite HAnil, HBnil in Hin. simpl in Hin.
    rewrite Forall_forall in HC. specialize (HC _ Hin).
    rewrite Hpw' in HC. discriminate. }
  assert (Hlast : findIndex within (rev (slice_from t 0)) = len C).
  { rewrite slice_from_0. unfold findIndex. rewrite Ht at 1.
    rewrite app_assoc, rev_app_distr.
    destruct (rev (A ++ B)) as [|y rest] eqn:EAB.
    - apply (f_equal (@List.length _)) in EAB. rewrite length_rev in EAB.
      destruct (A ++ B); [congruence|discriminate].
    - rewrite findIndex_at_hit.
      + unfold len. rewrite length_rev. lia.
      + apply Forall_rev. eapply Forall_impl; [|exact HC]. simpl.
        intros p Hp. now destruct (within p).
      + assert (Hy : In y (A ++ B)).
        { apply in_rev. rewrite EAB. now left. }
        apply in_app_or in Hy as [Hy|Hy];
          [rewrite Forall_forall in HAw; now apply HAw
          |rewrite Forall_forall in HB; now apply HB]. }
  change (truncate_with (Finite firstDate) within t)
    with (slice t
            (findIndex (fun p => geb_bound (fst p) (Finite firstDate)) t)
            (len t - 1 - findIndex within (rev (slice_from t 0)) + 1)).
  rewrite Hfirst, Hlast.
  replace (len t - 1 - len C + 1) with (len A + len B).
  - rewrite Ht at 1. apply slice_middle.
  - rewrite Ht at 1. unfold len. rewrite !length_app. lia.
Qed.
End TruncateFacts.

(** ** The common window of three timelines *)

Section WindowFacts.
Context {JS : JSNumber}.
Implicit Types t : Timeline.
Implicit Types e : Key * Timeline.

Lemma last_elem_snoc (T : Type) (init : list T) (x : T) :
  last_elem (init ++ [x]) = Some x.
Proof.
  unfold last_elem. destruct (init ++ [x]) eqn:E.
  - destruct init; discriminate.
  - rewrite <- E. rewrite length_app. simpl.
    replace (List.length init + 1 - 1)%nat with (List.length init) by lia.
    rewrite nth_error_app2, Nat.sub_diag by lia. reflexivity.
Qed.

Lemma last_elem_some (T : Type) (a : list T) :
  a <> [] -> exists init x, a = init ++ [x] /\ last_elem a = Some x.
Proof.
  intros Hne. destruct (exists_last Hne) as [init [x ->]].
  exists init, x. split; [reflexivity|apply last_elem_snoc].
Qed.

Lemma first_time_cons k (d : Date) v t : first_time (k, (d, v) :: t) = Some d.
Proof. reflexivity. Qed.

Lemma last_time_snoc k t (d : Date) v : last_time (k, t ++ [(d, v)]) = Some d.
Proof. unfold last_time. simpl snd. now rewrite last_elem_snoc. Qed.

Lemma first_time_some e :
  snd e <> [] -> exists d, first_time e = Some d.
Proof.
  destruct e as [k [|[d v] t]]; simpl; intros H; [congruence|].
  now exists d.
Qed.

Lemma last_time_some e :
  snd e <> [] -> exists d, last_time e = Some d.
Proof.
  intros H. destruct (last_elem_some H) as [init [[d v] [_ Hl]]].
  exists d. unfold last_time. now rewrite Hl.
Qed.

Lemma firstDate_of_three e1 e2 e3 f1 f2 f3 :
  first_time e1 = Some f1 -> first_time e2 = Some f2 ->
  first_time e3 = Some f3 ->
  firstDate_of [e1; e2; e3] = Some (Finite (Z.max (Z.max f1 f2) f3)).
Proof.
  intros H1 H2 H3. unfold firstDate_of. simpl. now rewrite H1, H2, H3.
Qed.

Lemma lastDate_v1_three e1 e2 e3 l1 l2 l3 :
  last_time e1 = Some l1 -> last_time e2 = Some l2 ->
  last_time e3 = Some l3 ->
  lastDate_v1 [e1; e2; e3] = Some (Finite (Z.min (Z.min l1 l2) l3)).
Proof.
  intros H1 H2 H3. unfold lastDate_v1. simpl. now rewrite H1, H2, H3.
Qed.

Lemma lastDate_v2_three now e1 e2 e3 l1 l2 l3 :
  last_time e1 = Some l1 -> last_time e2 = Some l2 ->
  last_time e3 = Some l3 ->
  lastDate_v2 now [e1; e2; e3] = Some (Z.min now (Z.min (Z.min l1 l2) l3)).
Proof.
  intros H1 H2 H3. unfold lastDate_v2. simpl. rewrite H1, H2, H3.
  f_equal.
  destruct (l1 <? now) eqn:E1;
    [apply Z.ltb_lt in E1|apply Z.ltb_ge in E1].
  - destruct (l2 <? l1) eqn:E2;
      [apply Z.ltb_lt in E2|apply Z.ltb_ge in E2].
    + destruct (l3 <? l2) eqn:E3;
        [apply Z.ltb_lt in E3|apply Z.ltb_ge in E3]; lia.
    + destruct (l3 <? l1) eqn:E3;
        [apply Z.ltb_lt in E3|apply Z.ltb_ge in E3]; lia.
  - destruct (l2 <? now) eqn:E2;
      [apply Z.ltb_lt in E2|apply Z.ltb_ge in E2].
    + destruct (l3 <? l2) eqn:E3;
        [apply Z.ltb_lt in E3|apply Z.ltb_ge in E3]; lia.
    + destruct (l3 <? now) eqn:E3;
        [apply Z.ltb_lt in E3|apply Z.ltb_ge in E3]; lia.
Qed.

(** The three two-scan truncations are instances of [truncate_with]. *)
Lemma truncate_v1_with firstDate lastDate t :
  truncate_v1 firstDate lastDate t =
  truncate_with firstDate (fun p => ltb_bound (fst p) lastDate) t.
Proof. reflexivity. Qed.

Lemma truncate_v2_with firstDate lastDate t :
  truncate_v2 firstDate lastDate t =
  truncate_with firstDate (fun p => fst p <=? lastDate) t.
Proof. reflexivity. Qed.

(** Second revision: an ascending timeline that starts no later than
    [firstDate] and ends no earlier than [lastDate] is cut to the closed
    window. *)
Lemma truncate_v2_window (firstDate lastDate : Date) t first last :
  Ascending t ->
  first_time (cases, t) = Some first -> last_time (cases, t) = Some last ->
  first <= firstDate -> firstDate <= lastDate -> lastDate <= last ->
  truncate_v2 (Finite firstDate) lastDate t =
  filter (in_window firstDate lastDate) t.
Proof.
  intros Hasc Hf Hl Hle1 Hle2 Hle3.
  rewrite truncate_v2_with. unfold in_window.
  apply truncate_with_filter.
  - assumption.
  - intros p q Hpq Hq. apply Z.leb_le in Hq. apply Z.leb_le. lia.
  - intros p Hp. apply Z.leb_le. lia.
  - unfold last_time in Hl. simpl snd in Hl.
    destruct (last_elem t) as [[d v]|] eqn:E; [|discriminate].
    injection Hl as ->. exists (last, v). split; [|simpl; lia].
    unfold last_elem in E. destruct t; [discriminate|].
    eapply nth_error_In; exact E.
  - unfold first_time, at_ in Hf. simpl snd in Hf.
    destruct t as [|[d v] t]; [discriminate|]. simpl in Hf.
    injection Hf as ->. exists (first, v). split; [now left|].
    simpl. apply Z.leb_le. lia.
Qed.

(** First revision: the same timeline is cut to the half-open window,
    provided the window spans more than its first date. *)
Lemma truncate_v1_window (firstDate lastDate : Date) t first last :
  Ascending t ->
  first_time (cases, t) = Some first -> last_time (cases, t) = Some last ->
  first <= firstDate -> firstDate < lastDate -> lastDate <= last ->
  truncate_v1 (Finite firstDate) (Finite lastDate) t =
  filter (before_end firstDate lastDate) t.
Proof.
  intros Hasc Hf Hl Hle1 Hle2 Hle3.
  rewrite truncate_v1_with. unfold before_end.
  apply truncate_with_filter.
  - assumption.
  - intros p q Hpq Hq. simpl in *. apply Z.ltb_lt in Hq. apply Z.ltb_lt. lia.
  - intros p Hp. simpl. apply Z.ltb_lt. lia.
  - unfold last_time in Hl. simpl snd in Hl.
    destruct (last_elem t) as [[d v]|] eqn:E; [|discriminate].
    injection Hl as ->. exists (last, v). split; [|simpl; lia].
    unfold last_elem in E. destruct t; [discriminate|].
    eapply nth_error_In; exact E.
  - unfold first_time, at_ in Hf. simpl snd in Hf.
    destruct t as [|[d v] t]; [discriminate|]. simpl in Hf.
    injection Hf as ->. exists (first, v). split; [now left|].
    simpl. apply Z.ltb_lt. lia.
Qed.
End WindowFacts.

(** ** Timelines with one point per day *)

Section DailyFacts.
Context {JS : JSNumber}.
Variable day : Z -> Date.
Hypothesis day_increasing : forall a b, a < b -> day a < day b.
Implicit Types t : Timeline.

Lemma day_le_inv a b : day a <= day b -> a <= b.
Proof.
  intros H. destruct (Z_lt_le_dec b a) as [Hlt|Hle]; [|assumption].
  apply day_increasing in Hlt. lia.
Qed.

Lemma zseq_In a n x : In x (zseq a n) <-> a <= x < a + Z.of_nat n.
Proof.
  revert a. induction n as [|n IH]; intros a; simpl.
  - lia.
  - rewrite IH. lia.
Qed.

Lemma zseq_nth a n (i : nat) :
  (i < n)%nat -> nth_error (zseq a n) i = Some (a + Z.of_nat i).
Proof.
  revert a i. induction n as [|n IH]; intros a [|i] Hi; simpl; try lia.
  - f_equal. lia.
  - rewrite IH by lia. f_equal. lia.
Qed.

Lemma daily_Ascending t : daily day t -> Ascending t.
Proof.
  intros [a Ha]. revert a Ha.
  induction t as [|p t IH]; intros a Ha; [constructor|].
  simpl in Ha. injection Ha as Hp Ht.
  constructor; [|now apply (IH (a + 1))].
  apply Forall_forall. intros q Hq.
  assert (Hin : In (fst q) (map day (zseq (a + 1) (List.length t)))).
  { unfold dates in Ht. rewrite <- Ht. now apply in_map. }
  apply in_map_iff in Hin as [k [Hk Hin]]. apply zseq_In in Hin.
  rewrite Hp, <- Hk.
  assert (a < k) by lia. apply day_increasing in H. lia.
Qed.

Lemma daily_first k t a f :
  dates t = map day (zseq a (List.length t)) ->
  first_time (k, t) = Some f -> f = day a.
Proof.
  destruct t as [|[d v] t]; simpl; intros Ha Hf; [discriminate|].
  injection Ha as Hd _. injection Hf as <-. exact Hd.
Qed.

Lemma daily_last k t a l :
  dates t = map day (zseq a (List.length t)) ->
  last_time (k, t) = Some l ->
  (0 < List.length t)%nat /\ l = day (a + Z.of_nat (List.length t) - 1).
Proof.
  intros Ha Hl. unfold last_time in Hl. simpl snd in Hl.
  destruct (last_elem t) as [[d v]|] eqn:E; [|discriminate].
  injection Hl as ->. unfold last_elem in E.
  destruct t as [|p t']; [discriminate|].
  remember (p :: t') as t eqn:Et.
  assert (Hn : (List.length t - 1 < List.length t)%nat)
    by (rewrite Et; simpl; lia).
  clear Et. split; [lia|].
  assert (Hd : nth_error (dates t) (List.length t - 1) = Some l).
  { exact (map_nth_error fst _ _ E). }
  rewrite Ha, nth_error_map, zseq_nth in Hd by exact Hn.
  cbn [option_map] in Hd. injection Hd as <-. f_equal. lia.
Qed.

(** Two strictly increasing lists with the same elements are equal. *)
Lemma increasing_ext (l l' : list Z) :
  StronglySorted Z.lt l -> StronglySorted Z.lt l' ->
  (forall x, In x l <-> In x l') -> l = l'.
Proof.
  intros Hl. revert l'.
  induction Hl as [|x l Hl IH Hx]; intros l' Hl' Hiff.
  - destruct l' as [|y l']; [reflexivity|].
    destruct (proj2 (Hiff y) (or_introl eq_refl)).
  - destruct Hl' as [|y l' Hl' Hy].
    + destruct (proj1 (Hiff x) (or_introl eq_refl)).
    + rewrite Forall_forall in Hx, Hy.
      assert (Hxy : x = y).
      { destruct (proj1 (Hiff x) (or_introl eq_refl)) as [E|Hin];
          [now symmetry|].
        destruct (proj2 (Hiff y) (or_introl eq_refl)) as [E|Hin'];
          [assumption|].
        specialize (Hx _ Hin'). specialize (Hy _ Hin). lia. }
      subst y. f_equal. apply IH; [assumption|].
      intros z. split; intros Hz.
      * destruct (proj1 (Hiff z) (or_intror Hz)) as [E|Hin];
          [|assumption].
        specialize (Hx _ Hz). lia.
      * destruct (proj2 (Hiff z) (or_intror Hz)) as [E|Hin];
          [|assumption].
        specialize (Hy _ Hz). lia.
Qed.

Lemma days_increasing a n : StronglySorted Z.lt (map day (zseq a n)).
Proof.
  revert a. induction n as [|n IH]; intros a; simpl; constructor.
  - apply IH.
  - apply Forall_forall. intros x Hx.
    apply in_map_iff in Hx as [k [<- Hk]]. apply zseq_In in Hk.
    apply day_increasing. lia.
Qed.

Lemma increasing_filter (f : Z -> bool) l :
  StronglySorted Z.lt l -> StronglySorted Z.lt (filter f l).
Proof.
  induction 1 as [|x l Hl IH Hx]; simpl; [constructor|].
  destruct (f x); [|assumption].
  constructor; [assumption|]. now apply Forall_filter_keep.
Qed.

(** The dates of the window cut out of a daily timeline that covers it do
    not depend on the timeline.  [W] is any test on dates that only passes
    dates between [firstDate] and [lastDate]. *)
Lemma window_dates (W : Z -> bool) t t' (firstDate lastDate : Date) f f' l l' :
  (forall x, W x = true -> firstDate <= x <= lastDate) ->
  daily day t -> daily day t' ->
  first_time (cases, t) = Some f -> last_time (cases, t) = Some l ->
  first_time (cases, t') = Some f' -> last_time (cases, t') = Some l' ->
  f <= firstDate -> f' <= firstDate -> lastDate <= l -> lastDate <= l' ->
  dates (filter (fun p => W (fst p)) t) =
  dates (filter (fun p => W (fst p)) t').
Proof.
  intros HW [a Ha] [a' Ha'] Hf Hl Hf' Hl' Hle1 Hle1' Hle2 Hle2'.
  pose proof (@daily_first _ _ _ _ Ha Hf) as Ef.
  pose proof (@daily_first _ _ _ _ Ha' Hf') as Ef'.
  destruct (@daily_last _ _ _ _ Ha Hl) as [Hn El].
  destruct (@daily_last _ _ _ _ Ha' Hl') as [Hn' El'].
  assert (Hd : forall u : Timeline,
             dates (filter (fun p => W (fst p)) u) = filter W (dates u)).
  { intros u. unfold dates. symmetry. apply filter_map_swap. }
  rewrite !Hd, Ha, Ha'.
  assert (Hcover : forall b m g h x,
             g = day b -> h = day (b + Z.of_nat m - 1) ->
             g <= firstDate -> lastDate <= h ->
             forall c n, In x (filter W (map day (zseq c n))) ->
                         In x (filter W (map day (zseq b m)))).
  { intros b m g h x Hg Hh Hg' Hh' c n Hx.
    apply filter_In in Hx as [Hx Hpass]. apply filter_In.
    split; [|exact Hpass].
    apply in_map_iff in Hx as [k [<- Hk]]. apply in_map. apply zseq_In.
    apply HW in Hpass. subst g h.
    assert (H1 : day b <= day k) by lia.
    assert (H2 : day k <= day (b + Z.of_nat m - 1)) by lia.
    apply day_le_inv in H1, H2. lia. }
  apply increasing_ext.
  - apply increasing_filter, days_increasing.
  - apply increasing_filter, days_increasing.
  - intros x. split.
    + apply (Hcover a' _ f' l'); assumption.
    + apply (Hcover a _ f l); assumption.
Qed.
End DailyFacts.

(** ** Recognised entries *)

Section EntryFacts.
Context {JS : JSNumber}.
Variable parseTime : string -> option Date.

Lemma on_entry_v1_length result entry :
  List.length (on_entry_v1 parseTime result entry) =
  (List.length result + if recognised entry then 1 else 0)%nat.
Proof.
  unfold on_entry_v1, recognised.
  destruct (0 <=? indexOf (fileName entry) "Epikurve");
    [|destruct (0 <=? indexOf (fileName entry) "GenesenTimeline");
      [|destruct (0 <=? indexOf (fileName entry) "TodesfaelleTimeline")]];
    simpl; rewrite ?length_app; simpl; lia.
Qed.

Lemma on_entry_v2_length result entry :
  List.length (on_entry_v2 parseTime result entry) =
  (List.length result + if recognised entry then 1 else 0)%nat.
Proof.
  unfold on_entry_v2, recognised.
  destruct (0 <=? indexOf (fileName entry) "Epikurve");
    [|destruct (0 <=? indexOf (fileName entry) "GenesenTimeline");
      [|destruct (0 <=? indexOf (fileName entry) "TodesfaelleTimeline")]];
    simpl; rewrite ?length_app; simpl; lia.
Qed.

Lemma pushed_count (handler : Result -> Entry -> Result) entries result :
  (forall r e, List.length (handler r e) =
               (List.length r + if recognised e then 1 else 0)%nat) ->
  List.length (fold_left handler entries result) =
  (List.length result + List.length (filter recognised entries))%nat.
Proof.
  intros Hstep. revert result.
  induction entries as [|e entries IH]; intros result; simpl; [lia|].
  rewrite IH, Hstep. destruct (recognised e); simpl; lia.
Qed.

Lemma on_end_v1_rejects result :
  List.length result <> 3%nat -> on_end_v1 result = Rejected result.
Proof.
  intros H. unfold on_end_v1, len.
  destruct (Z.of_nat (List.length result) =? 3) eqn:E; [|reflexivity].
  apply Z.eqb_eq in E. lia.
Qed.

Lemma on_end_v2_rejects now result :
  List.length result <> 3%nat -> on_end_v2 now result = Rejected result.
Proof.
  intros H. unfold on_end_v2, len.
  destruct (Z.of_nat (List.length result) =? 3) eqn:E; [|reflexivity].
  apply Z.eqb_eq in E. lia.
Qed.
(** An archive whose entries are the three series, in the order cases,
    recovered, deaths: [fetchData] is the aligner applied to the three built
    timelines. *)
Lemma fetchData_v1_three e1 e2 e3 :
  0 <= indexOf (fileName e1) "Epikurve" ->
  indexOf (fileName e2) "Epikurve" < 0 ->
  0 <= indexOf (fileName e2) "GenesenTimeline" ->
  indexOf (fileName e3) "Epikurve" < 0 ->
  indexOf (fileName e3) "GenesenTimeline" < 0 ->
  0 <= indexOf (fileName e3) "TodesfaelleTimeline" ->
  fetchData_v1 parseTime [e1; e2; e3] =
  align_v1 (cases_timeline_v1 parseTime (rows e1))
           (plain_timeline parseTime (rows e2))
           (plain_timeline parseTime (rows e3)).
Proof.
  intros H1 H2 H2' H3 H3' H3''.
  unfold fetchData_v1, align_v1. simpl fold_left. unfold on_entry_v1.
  apply Z.leb_le in H1, H2', H3''. apply Z.leb_gt in H2, H3, H3'.
  rewrite H1, H2, H2', H3, H3', H3''. reflexivity.
Qed.

Lemma fetchData_v2_three now e1 e2 e3 :
  0 <= indexOf (fileName e1) "Epikurve" ->
  indexOf (fileName e2) "Epikurve" < 0 ->
  0 <= indexOf (fileName e2) "GenesenTimeline" ->
  indexOf (fileName e3) "Epikurve" < 0 ->
  indexOf (fileName e3) "GenesenTimeline" < 0 ->
  0 <= indexOf (fileName e3) "TodesfaelleTimeline" ->
  fetchData_v2 parseTime now [e1; e2; e3] =
  align_v2 now (cases_timeline_v2 parseTime (rows e1))
           (plain_timeline parseTime (rows e2))
           (plain_timeline parseTime (rows e3)).
Proof.
  intros H1 H2 H2' H3 H3' H3''.
  unfold fetchData_v2, align_v2. simpl fold_left. unfold on_entry_v2.
  apply Z.leb_le in H1, H2', H3''. apply Z.leb_gt in H2, H3, H3'.
  rewrite H1, H2, H2', H3, H3', H3''. reflexivity.
Qed.
End EntryFacts.

(** ** The aligner on three keyed timelines *)

Section AlignFacts.
Context {JS : JSNumber}.
Implicit Types c r d t : Timeline.

Lemma window_inv_first k1 k2 k3 t1 t2 t3 (B : bound) :
  firstDate_of [(k1, t1); (k2, t2); (k3, t3)] = Some B ->
  exists f1 f2 f3,
    first_time (k1, t1) = Some f1 /\ first_time (k2, t2) = Some f2
    /\ first_time (k3, t3) = Some f3
    /\ B = Finite (Z.max (Z.max f1 f2) f3).
Proof.
  intros H.
  destruct (first_time (k1, t1)) as [f1|] eqn:E1;
    [|unfold firstDate_of in H; simpl in H; rewrite E1 in H; discriminate].
  destruct (first_time (k2, t2)) as [f2|] eqn:E2;
    [|unfold firstDate_of in H; simpl in H; rewrite E1, E2 in H;
      discriminate].
  destruct (first_time (k3, t3)) as [f3|] eqn:E3;
    [|unfold firstDate_of in H; simpl in H; rewrite E1, E2, E3 in H;
      discriminate].
  exists f1, f2, f3. repeat split.
  rewrite (firstDate_of_three _ _ _ E1 E2 E3) in H. congruence.
Qed.

Lemma first_time_last_time k t f :
  first_time (k, t) = Some f -> exists l, last_time (k, t) = Some l.
Proof.
  intros H. apply last_time_some. simpl.
  destruct t; [discriminate|congruence].
Qed.

Lemma on_end_v1_three k1 k2 k3 t1 t2 t3 f1 f2 f3 l1 l2 l3 :
  first_time (k1, t1) = Some f1 -> first_time (k2, t2) = Some f2 ->
  first_time (k3, t3) = Some f3 ->
  last_time (k1, t1) = Some l1 -> last_time (k2, t2) = Some l2 ->
  last_time (k3, t3) = Some l3 ->
  on_end_v1 [(k1, t1); (k2, t2); (k3, t3)] =
  Resolved (collect (truncate_v1 (Finite (Z.max (Z.max f1 f2) f3))
                                 (Finite (Z.min (Z.min l1 l2) l3)))
                    [(k1, t1); (k2, t2); (k3, t3)]).
Proof.
  intros F1 F2 F3 L1 L2 L3. unfold on_end_v1.
  change (len [(k1, t1); (k2, t2); (k3, t3)] =? 3) with true. cbv iota.
  rewrite (firstDate_of_three _ _ _ F1 F2 F3).
  rewrite (lastDate_v1_three _ _ _ L1 L2 L3). reflexivity.
Qed.

Lemma on_end_v2_three now k1 k2 k3 t1 t2 t3 f1 f2 f3 l1 l2 l3 :
  first_time (k1, t1) = Some f1 -> first_time (k2, t2) = Some f2 ->
  first_time (k3, t3) = Some f3 ->
  last_time (k1, t1) = Some l1 -> last_time (k2, t2) = Some l2 ->
  last_time (k3, t3) = Some l3 ->
  on_end_v2 now [(k1, t1); (k2, t2); (k3, t3)] =
  Resolved (collect (truncate_v2 (Finite (Z.max (Z.max f1 f2) f3))
                                 (Z.min now (Z.min (Z.min l1 l2) l3)))
                    [(k1, t1); (k2, t2); (k3, t3)]).
Proof.
  intros F1 F2 F3 L1 L2 L3. unfold on_end_v2.
  change (len [(k1, t1); (k2, t2); (k3, t3)] =? 3) with true. cbv iota.
  rewrite (firstDate_of_three _ _ _ F1 F2 F3).
  rewrite (lastDate_v2_three now _ _ _ L1 L2 L3). reflexivity.
Qed.

(** Second revision, non-empty window, ascending timelines: every
    timeline is cut to exactly its points inside the closed window. *)
Lemma align_v2_exact now c r d (firstDate lastDate : Date) :
  Ascending c -> Ascending r -> Ascending d ->
  firstDate_of [(cases, c); (recovered, r); (deaths, d)]
  = Some (Finite firstDate) ->
  lastDate_v2 now [(cases, c); (recovered, r); (deaths, d)]
  = Some lastDate ->
  firstDate <= lastDate ->
  align_v2 now c r d =
  Resolved (mkData (Some (filter (in_window firstDate lastDate) c))
                   (Some (filter (in_window firstDate lastDate) r))
                   (Some (filter (in_window firstDate lastDate) d))).
Proof.
  intros Ac Ar Ad HF HL Hwin.
  destruct (@window_inv_first _ _ _ _ _ _ _ HF)
    as [f1 [f2 [f3 [F1 [F2 [F3 EF]]]]]].
  destruct (@first_time_last_time _ _ _ F1) as [l1 L1].
  destruct (@first_time_last_time _ _ _ F2) as [l2 L2].
  destruct (@first_time_last_time _ _ _ F3) as [l3 L3].
  rewrite (lastDate_v2_three now _ _ _ L1 L2 L3) in HL.
  injection HL as EL. injection EF as EF.
  unfold align_v2. rewrite (@on_end_v2_three now _ _ _ _ _ _ _ _ _ _ _ _ F1 F2 F3 L1 L2 L3).
  rewrite <- EF, EL. unfold collect. simpl.
  rewrite (truncate_v2_window (t := c) (first := f1) (last := l1));
    try assumption; try lia.
  rewrite (truncate_v2_window (t := r) (first := f2) (last := l2));
    try assumption; try lia.
  rewrite (truncate_v2_window (t := d) (first := f3) (last := l3));
    try assumption; try lia.
  reflexivity.
Qed.

(** First revision, window of more than one date, ascending timelines:
    every timeline is cut to its points inside the half-open window, so
    the points dated [lastDate] are dropped. *)
Lemma align_v1_half_open c r d (firstDate lastDate : Date) :
  Ascending c -> Ascending r -> Ascending d ->
  firstDate_of [(cases, c); (recovered, r); (deaths, d)]
  = Some (Finite firstDate) ->
  lastDate_v1 [(cases, c); (recovered, r); (deaths, d)]
  = Some (Finite lastDate) ->
  firstDate < lastDate ->
  align_v1 c r d =
  Resolved (mkData (Some (filter (before_end firstDate lastDate) c))
                   (Some (filter (before_end firstDate lastDate) r))
                   (Some (filter (before_end firstDate lastDate) d))).
Proof.
  intros Ac Ar Ad HF HL Hwin.
  destruct (@window_inv_first _ _ _ _ _ _ _ HF)
    as [f1 [f2 [f3 [F1 [F2 [F3 EF]]]]]].
  destruct (@first_time_last_time _ _ _ F1) as [l1 L1].
  destruct (@first_time_last_time _ _ _ F2) as [l2 L2].
  destruct (@first_time_last_time _ _ _ F3) as [l3 L3].
  rewrite (lastDate_v1_three _ _ _ L1 L2 L3) in HL.
  injection HL as EL. injection EF as EF.
  unfold align_v1. rewrite (@on_end_v1_three _ _ _ _ _ _ _ _ _ _ _ _ F1 F2 F3 L1 L2 L3).
  rewrite <- EF, EL. unfold collect. simpl.
  rewrite (truncate_v1_window (t := c) (first := f1) (last := l1));
    try assumption; try lia.
  rewrite (truncate_v1_window (t := r) (first := f2) (last := l2));
    try assumption; try lia.
  rewrite (truncate_v1_window (t := d) (first := f3) (last := l3));
    try assumption; try lia.
  reflexivity.
Qed.

(** A timeline that starts at [firstDate] and ends at [lastDate] is left
    as it is by the inclusive truncation. *)
Lemma truncate_v2_whole (firstDate lastDate : Date) t v rest init w :
  t = (firstDate, v) :: rest -> t = init ++ [(lastDate, w)] ->
  truncate_v2 (Finite firstDate) lastDate t = t.
Proof.
  intros Hhd Hlast. unfold truncate_v2.
  assert (H1 : findIndex (fun p : TimePoint =>
                            geb_bound (fst p) (Finite firstDate)) t = 0).
  { rewrite Hhd. unfold findIndex. simpl.
    now rewrite Z.leb_refl. }
  assert (H2 : findIndex (fun p : TimePoint => fst p <=? lastDate)
                         (rev (slice_from t 0)) = 0).
  { rewrite slice_from_0, Hlast, rev_app_distr. unfold findIndex. simpl.
    now rewrite Z.leb_refl. }
  change (slice t
            (findIndex (fun p : TimePoint =>
                          geb_bound (fst p) (Finite firstDate)) t)
            (len t - 1
             - findIndex (fun p : TimePoint => fst p <=? lastDate)
                         (rev (slice_from t 0)) + 1) = t).
  rewrite H1, H2. replace (len t - 1 - 0 + 1) with (len t) by lia.
  apply slice_from_0.
Qed.
End AlignFacts.

(** ** Timelines with the same dates *)

Section SameDatesFacts.
Context {JS : JSNumber}.
Implicit Types t : Timeline.

Lemma same_dates_ends t t' (f l : Date) v rest init w :
  t = (f, v) :: rest -> t = init ++ [(l, w)] -> dates t' = dates t ->
  exists v' rest' init' w',
    t' = (f, v') :: rest' /\ t' = init' ++ [(l, w')].
Proof.
  intros Hhd Hlast Hd.
  destruct t' as [|[f' v'] rest'].
  - rewrite Hhd in Hd. discriminate.
  - assert (Hf : f' = f) by (rewrite Hhd in Hd; now injection Hd).
    subst f'.
    assert (Hne : (f, v') :: rest' <> []) by discriminate.
    destruct (exists_last Hne) as [init' [[l' w'] E]].
    exists v', rest', init', w'. split; [reflexivity|].
    assert (Hl : l' = l).
    { assert (Hd' : dates (init' ++ [(l', w')]) = dates (init ++ [(l, w)])).
      { rewrite <- E, <- Hlast. exact Hd. }
      unfold dates in Hd'. rewrite !map_app in Hd'. simpl in Hd'.
      now apply app_inj_tail in Hd' as [_ Hl]. }
    subst l'. exact E.
Qed.
End SameDatesFacts.

(** * The statements of the specification *)

(** C7: [orZero] on a text cell returns the number the text converts to,
    unless that number is NaN, in which case it returns 0; it always returns
    a number.  On the integer reading, "12" gives 12, "-3" gives -3 and "<5"
    gives 0. *)
Theorem orZero_number_or_zero :
  (forall (JS : JSNumber) (s : string),
      orZero (str s) = num (if isNaN (Number s) then zero else Number s))
  /\ orZero (JS := IntNumber) (str "12") = count 12
  /\ orZero (JS := IntNumber) (str "-3") = count (-3)
  /\ orZero (JS := IntNumber) (str "<5") = count 0
  /\ orZero (JS := IntNumber) (str "n/a") = count 0.
Proof.
  split; [intros JS s; apply orZero_str|].
  repeat split; reflexivity.
Qed.

(** C9: from a row sequence of length n >= 1, each series builder (the
    running-sum builder of either revision and the pass-through builder)
    makes a timeline of length n - 1: the header is dropped and every other
    row gives one point. *)
Theorem builders_drop_header (JS : JSNumber) (parseTime : string -> option Date)
        (csv : CSV) :
  (1 <= List.length csv)%nat ->
  List.length (cases_timeline_v1 parseTime csv) = (List.length csv - 1)%nat
  /\ List.length (cases_timeline_v2 parseTime csv) = (List.length csv - 1)%nat
  /\ List.length (plain_timeline parseTime csv) = (List.length csv - 1)%nat
  /\ dates (plain_timeline parseTime csv) = map (dateOf parseTime) (tl csv)
  /\ dates (cases_timeline_v1 parseTime csv) = map (dateOf parseTime) (tl csv).
Proof.
  intros Hn.
  assert (Htl : List.length (tl csv) = (List.length csv - 1)%nat)
    by (destruct csv; simpl; lia).
  assert (H1 : List.length (cases_timeline_v1 parseTime csv)
               = (List.length csv - 1)%nat).
  { rewrite cases_timeline_v1_unfold, mapi_at_length. exact Htl. }
  assert (Hd : forall (f : list string -> nat -> value) a k,
             map fst (mapi_at (fun row idx => (dateOf parseTime row, f row idx))
                              a k)
             = map (dateOf parseTime) a).
  { intros f a. induction a as [|x a IH]; intros k; simpl;
      [reflexivity|now rewrite IH]. }
  repeat split.
  - exact H1.
  - now rewrite <- cases_timelines_agree.
  - unfold plain_timeline. now rewrite slice_from_1, length_map.
  - unfold plain_timeline, dates. rewrite slice_from_1, map_map. reflexivity.
  - unfold dates. rewrite cases_timeline_v1_unfold. apply Hd.
Qed.

Lemma builders_drop_header_witness :
  (1 <= List.length increments)%nat
  /\ List.length (cases_timeline_v1 (JS := IntNumber) parseDay increments)
     = 4%nat.
Proof.
  split; [simpl; lia|].
  apply (builders_drop_header IntNumber parseDay increments). simpl; lia.
Defined.




(** C10: on every parsed CSV the per-index slice-and-reduce and the
    single-pass accumulating reduce build the same cases timeline: the same
    dates and the same values in the same order. *)
Theorem cases_timeline_revisions_agree (JS : JSNumber)
        (parseTime : string -> option Date) (csv : CSV) :
  cases_timeline_v1 parseTime csv = cases_timeline_v2 parseTime csv.
Proof. apply cases_timelines_agree. Qed.

(** C8: when fewer than three entries are recognised by the substring tests
    on their names, [fetchData] (either revision) rejects, handing over the
    recognised results, and resolves with no data. *)
Theorem fetchData_rejects_incomplete (JS : JSNumber)
        (parseTime : string -> option Date) (now : Date)
        (entries : list Entry) :
  (List.length (filter recognised entries) < 3)%nat ->
  fetchData_v1 parseTime entries
  = Rejected (fold_left (on_entry_v1 parseTime) entries [])
  /\ fetchData_v2 parseTime now entries
     = Rejected (fold_left (on_entry_v2 parseTime) entries []).
Proof.
  intros H. unfold fetchData_v1, fetchData_v2. split.
  - apply on_end_v1_rejects.
    rewrite (pushed_count _ entries [] (on_entry_v1_length parseTime)).
    simpl. lia.
  - apply on_end_v2_rejects.
    rewrite (pushed_count _ entries [] (on_entry_v2_length parseTime)).
    simpl. lia.
Qed.

Lemma fetchData_rejects_incomplete_witness :
  (List.length (filter recognised two_recognised) < 3)%nat
  /\ fetchData_v2 (JS := IntNumber) parseDay 100 two_recognised
     = Rejected (fold_left (on_entry_v2 parseDay) two_recognised []).
Proof.
  split; [vm_compute; lia|].
  apply (fetchData_rejects_incomplete IntNumber parseDay 100 two_recognised).
  vm_compute; lia.
Defined.

(** C1: the first revision scans the trailing edge with the strict
    [date.getTime() < lastDate].  On timelines over days 1-10, 3-12 and 1-8
    the window is [3, 8], and every timeline is cut to days 3-7: the point
    dated [lastDate] = 8 lies in the window and in each input, and is in none
    of the outputs.  (The second revision keeps it, see [align_v2_exact].) *)
Theorem align_v1_drops_lastDate :
  firstDate_of [(cases, days_1_10); (recovered, days_3_12); (deaths, days_1_8)]
  = Some (Finite 3)
  /\ lastDate_v1 [(cases, days_1_10); (recovered, days_3_12); (deaths, days_1_8)]
     = Some (Finite 8)
  /\ align_v1 days_1_10 days_3_12 days_1_8
     = Resolved (mkData (Some (days IntNumber (zseq 3 5)))
                        (Some (days IntNumber (zseq 3 5)))
                        (Some (days IntNumber (zseq 3 5))))
  /\ In (8, count 0) days_1_10 /\ In (8, count 0) days_3_12
  /\ In (8, count 0) days_1_8
  /\ in_window 3 8 (8, count 0) = true
  /\ ~ In (8, count 0) (days IntNumber (zseq 3 5))
  /\ align_v2 100 days_1_10 days_3_12 days_1_8
     = Resolved (mkData (Some (days IntNumber (zseq 3 6)))
                        (Some (days IntNumber (zseq 3 6)))
                        (Some (days IntNumber (zseq 3 6)))).
Proof.
  repeat split; try reflexivity.
  - unfold days_1_10, days. simpl. tauto.
  - unfold days_3_12, days. simpl. tauto.
  - unfold days_1_8, days. simpl. tauto.
  - unfold days. simpl. intros H.
    repeat (destruct H as [H|H]; [discriminate H|]). exact H.
Qed.

(** C2, counterexample: on timelines over days 1-5, 1-5 and 10-15 the
    computed window is empty (firstDate 10, lastDate 5), and both revisions
    resolve with a data set. *)
Lemma disjoint_window_resolves :
  firstDate_of [(cases, days_1_5); (recovered, days_1_5); (deaths, days_10_15)]
  = Some (Finite 10)
  /\ lastDate_v2 100
       [(cases, days_1_5); (recovered, days_1_5); (deaths, days_10_15)]
     = Some 5
  /\ align_v1 days_1_5 days_1_5 days_10_15
     = Resolved (mkData (Some []) (Some []) (Some days_10_15))
  /\ align_v2 100 days_1_5 days_1_5 days_10_15
     = Resolved (mkData (Some (days IntNumber [5])) (Some (days IntNumber [5]))
                        (Some days_10_15)).
Proof. repeat split; reflexivity. Qed.

(** C2, amended: there is no alignment error.  On any three non-empty
    timelines, whether their common window is empty or not, the end handler
    of either revision resolves with a data set holding a timeline under each
    of the three keys. *)
Theorem align_always_resolves (JS : JSNumber) (now : Date)
        (c r d : Timeline) :
  c <> [] -> r <> [] -> d <> [] ->
  (exists c' r' d',
      align_v1 c r d = Resolved (mkData (Some c') (Some r') (Some d')))
  /\ (exists c' r' d',
         align_v2 now c r d = Resolved (mkData (Some c') (Some r') (Some d'))).
Proof.
  intros Hc Hr Hd.
  destruct (@first_time_some _ (cases, c) Hc) as [f1 F1].
  destruct (@first_time_some _ (recovered, r) Hr) as [f2 F2].
  destruct (@first_time_some _ (deaths, d) Hd) as [f3 F3].
  destruct (@last_time_some _ (cases, c) Hc) as [l1 L1].
  destruct (@last_time_some _ (recovered, r) Hr) as [l2 L2].
  destruct (@last_time_some _ (deaths, d) Hd) as [l3 L3].
  split.
  - unfold align_v1.
    rewrite (@on_end_v1_three _ _ _ _ _ _ _ _ _ _ _ _ _ F1 F2 F3 L1 L2 L3).
    do 3 eexists. reflexivity.
  - unfold align_v2.
    rewrite (@on_end_v2_three _ now _ _ _ _ _ _ _ _ _ _ _ _ F1 F2 F3 L1 L2 L3).
    do 3 eexists. reflexivity.
Qed.

Lemma align_always_resolves_witness :
  days_1_5 <> [] /\ days_10_15 <> []
  /\ exists c' r' d',
      align_v2 100 days_1_5 days_1_5 days_10_15
      = Resolved (mkData (Some c') (Some r') (Some d')).
Proof.
  split; [discriminate|]. split; [discriminate|].
  apply (align_always_resolves 100 (c := days_1_5) (r := days_1_5)
                               (d := days_10_15)); discriminate.
Defined.

(** C4, counterexample: in the second revision, with the clock at 2 and
    three timelines that all end on day 3, the computed lastDate is 2, not
    the minimum 3 of the last dates. *)
Lemma lastDate_v2_clock :
  last_time (cases, days_1_3) = Some 3
  /\ lastDate_v2 2 [(cases, days_1_3); (recovered, days_1_3); (deaths, days_1_3)]
     = Some 2
  /\ lastDate_v2 2 [(cases, days_1_3); (recovered, days_1_3); (deaths, days_1_3)]
     <> Some (Z.min (Z.min 3 3) 3).
Proof. repeat split; try reflexivity. discriminate. Qed.

(** C4, amended: for three non-empty timelines, firstDate is the maximum of
    the three first dates; lastDate is the minimum of the three last dates in
    the first revision, and the minimum of the three last dates and the
    current time in the second revision. *)
Theorem window_bounds (JS : JSNumber) (now : Date) (c r d : Timeline)
        (fc fr fd lc lr ld : Date) (vc vr vd wc wr wd : value)
        (c1 r1 d1 c0 r0 d0 : Timeline) :
  c = (fc, vc) :: c1 -> r = (fr, vr) :: r1 -> d = (fd, vd) :: d1 ->
  c = c0 ++ [(lc, wc)] -> r = r0 ++ [(lr, wr)] -> d = d0 ++ [(ld, wd)] ->
  firstDate_of [(cases, c); (recovered, r); (deaths, d)]
  = Some (Finite (Z.max (Z.max fc fr) fd))
  /\ lastDate_v1 [(cases, c); (recovered, r); (deaths, d)]
     = Some (Finite (Z.min (Z.min lc lr) ld))
  /\ lastDate_v2 now [(cases, c); (recovered, r); (deaths, d)]
     = Some (Z.min now (Z.min (Z.min lc lr) ld)).
Proof.
  intros Hc Hr Hd Hc' Hr' Hd'. repeat split.
  - apply firstDate_of_three; [rewrite Hc|rewrite Hr|rewrite Hd];
      apply first_time_cons.
  - apply lastDate_v1_three; [rewrite Hc'|rewrite Hr'|rewrite Hd'];
      apply last_time_snoc.
  - apply lastDate_v2_three; [rewrite Hc'|rewrite Hr'|rewrite Hd'];
      apply last_time_snoc.
Qed.

Lemma window_bounds_witness :
  lastDate_v2 2 [(cases, days_1_3); (recovered, days_1_3); (deaths, day_10)]
  = Some (Z.min 2 (Z.min (Z.min 3 3) 10)).
Proof.
  apply (@window_bounds IntNumber 2 days_1_3 days_1_3 day_10
           1 1 10 3 3 10 (count 0) (count 0) (count 0)
           (count 0) (count 0) (count 0)
           (days IntNumber [2; 3]) (days IntNumber [2; 3]) []
           (days IntNumber [1; 2]) (days IntNumber [1; 2]) []);
    reflexivity.
Defined.

(** C6, counterexample: three empty timelines are aligned with one
    another, and the end handler throws on them; three timelines over days
    1-3 are aligned, and with the clock at 2 the second revision cuts each
    to days 1-2. *)
Lemma realign_changes :
  align_v2 (JS := IntNumber) 100 [] [] [] = Uncaught
  /\ align_v1 (JS := IntNumber) [] [] [] = Uncaught
  /\ align_v2 2 days_1_3 days_1_3 days_1_3
     = Resolved (mkData (Some (days IntNumber [1; 2]))
                        (Some (days IntNumber [1; 2]))
                        (Some (days IntNumber [1; 2])))
  /\ days IntNumber [1; 2] <> days_1_3.
Proof. repeat split; try reflexivity. discriminate. Qed.

(** C6, amended: three non-empty timelines with identical dates at each
    index, whose last date is not later than the current time, are returned
    unchanged by the aligner of the second revision. *)
Theorem align_v2_fixed_point (JS : JSNumber) (now : Date) (c r d : Timeline)
        (init : Timeline) (l : Date) (w : value) :
  c = init ++ [(l, w)] -> dates r = dates c -> dates d = dates c ->
  l <= now ->
  align_v2 now c r d = Resolved (mkData (Some c) (Some r) (Some d)).
Proof.
  intros Hlast Hr Hd Hnow.
  destruct c as [|[f v] rest] eqn:Ec; [destruct init; discriminate|].
  rewrite <- Ec in *.
  destruct (@same_dates_ends JS c r f l v rest init w Ec Hlast Hr)
    as [vr [rr [ir [wr [Hr1 Hr2]]]]].
  destruct (@same_dates_ends JS c d f l v rest init w Ec Hlast Hd)
    as [vd [rd [id [wd [Hd1 Hd2]]]]].
  unfold align_v2.
  assert (F1 : first_time (cases, c) = Some f) by (rewrite Ec; reflexivity).
  assert (F2 : first_time (recovered, r) = Some f)
    by (rewrite Hr1; reflexivity).
  assert (F3 : first_time (deaths, d) = Some f)
    by (rewrite Hd1; reflexivity).
  assert (L1 : last_time (cases, c) = Some l)
    by (rewrite Hlast; apply last_time_snoc).
  assert (L2 : last_time (recovered, r) = Some l)
    by (rewrite Hr2; apply last_time_snoc).
  assert (L3 : last_time (deaths, d) = Some l)
    by (rewrite Hd2; apply last_time_snoc).
  rewrite (@on_end_v2_three _ now _ _ _ _ _ _ _ _ _ _ _ _ F1 F2 F3 L1 L2 L3).
  rewrite !Z.max_id, !Z.min_id, (Z.min_r now l) by lia.
  unfold collect. simpl.
  rewrite (@truncate_v2_whole JS f l c v rest init w Ec Hlast).
  rewrite (@truncate_v2_whole JS f l r vr rr ir wr Hr1 Hr2).
  rewrite (@truncate_v2_whole JS f l d vd rd id wd Hd1 Hd2).
  reflexivity.
Qed.

Lemma align_v2_fixed_point_witness :
  align_v2 100 days_1_3 days_1_3 days_1_3
  = Resolved (mkData (Some days_1_3) (Some days_1_3) (Some days_1_3)).
Proof.
  apply (@align_v2_fixed_point IntNumber 100 days_1_3 days_1_3 days_1_3
           (days IntNumber [1; 2]) 3 (count 0));
    [reflexivity|reflexivity|reflexivity|lia].
Defined.

(** C5, counterexample: timelines over days 1-3, 1-3 and the single day 10
    are ascending with one point per day; the second revision resolves with
    timelines of equal length, which pass the guard of [draw], and whose
    dates are 3, 3 and 10.  So does the first revision on the single days 3,
    3 and 10.  Over days 1-5, 1-5 and 10-15 the lengths come out as 1, 1 and
    6 in the second revision and as 0, 0 and 6 in the first. *)
Lemma empty_window_misaligned :
  daily day_number days_1_3 /\ daily day_number day_10
  /\ daily day_number day_3
  /\ align_v2 100 days_1_3 days_1_3 day_10
     = Resolved (mkData (Some day_3) (Some day_3) (Some day_10))
  /\ align_v1 day_3 day_3 day_10
     = Resolved (mkData (Some day_3) (Some day_3) (Some day_10))
  /\ draw_guard (mkData (Some day_3) (Some day_3) (Some day_10)) = true
  /\ dates day_3 <> dates day_10
  /\ align_v2 100 days_1_5 days_1_5 days_10_15
     = Resolved (mkData (Some (days IntNumber [5])) (Some (days IntNumber [5]))
                        (Some days_10_15))
  /\ align_v1 days_1_5 days_1_5 days_10_15
     = Resolved (mkData (Some []) (Some []) (Some days_10_15))
  /\ List.length (days IntNumber [5]) <> List.length days_10_15
  /\ List.length (@nil (TimePoint (JS := IntNumber)))
     <> List.length days_10_15.
Proof.
  split; [exists 1; reflexivity|]. split; [exists 10; reflexivity|].
  split; [exists 3; reflexivity|].
  repeat split; try reflexivity; discriminate.
Qed.

(** C5, amended: when the three timelines are ascending with one point per
    calendar day and the computed window is not empty, the aligner resolves
    with three timelines of equal length that carry identical dates at each
    index: in the second revision as soon as firstDate <= lastDate, in the
    first revision as soon as firstDate < lastDate. *)
Theorem aligned_on_common_window (JS : JSNumber) (day : Z -> Date)
        (now : Date) (c r d : Timeline) (firstDate : Date) :
  (forall a b, a < b -> day a < day b) ->
  daily day c -> daily day r -> daily day d ->
  firstDate_of [(cases, c); (recovered, r); (deaths, d)]
  = Some (Finite firstDate) ->
  (forall lastDate,
      lastDate_v2 now [(cases, c); (recovered, r); (deaths, d)]
      = Some lastDate ->
      firstDate <= lastDate ->
      exists c' r' d',
        align_v2 now c r d = Resolved (mkData (Some c') (Some r') (Some d'))
        /\ dates c' = dates r' /\ dates r' = dates d'
        /\ List.length c' = List.length r'
        /\ List.length r' = List.length d')
  /\ (forall lastDate,
         lastDate_v1 [(cases, c); (recovered, r); (deaths, d)]
         = Some (Finite lastDate) ->
         firstDate < lastDate ->
         exists c' r' d',
           align_v1 c r d = Resolved (mkData (Some c') (Some r') (Some d'))
           /\ dates c' = dates r' /\ dates r' = dates d'
           /\ List.length c' = List.length r'
           /\ List.length r' = List.length d').
Proof.
  intros Hday Dc Dr Dd HF.
  pose proof (daily_Ascending Hday Dc) as Ac.
  pose proof (daily_Ascending Hday Dr) as Ar.
  pose proof (daily_Ascending Hday Dd) as Ad.
  destruct (@window_inv_first _ _ _ _ _ _ _ _ HF)
    as [f1 [f2 [f3 [F1 [F2 [F3 EF]]]]]].
  destruct (@first_time_last_time _ _ _ _ F1) as [l1 L1].
  destruct (@first_time_last_time _ _ _ _ F2) as [l2 L2].
  destruct (@first_time_last_time _ _ _ _ F3) as [l3 L3].
  injection EF as EF.
  assert (Hlen : forall u u' : Timeline,
             dates u = dates u' -> List.length u = List.length u').
  { intros u u' H. apply (f_equal (@List.length _)) in H. unfold dates in H.
    now rewrite !length_map in H. }
  split; intros lastDate HL Hwin.
  - rewrite (lastDate_v2_three now _ _ _ L1 L2 L3) in HL. injection HL as EL.
    exists (filter (in_window firstDate lastDate) c),
           (filter (in_window firstDate lastDate) r),
           (filter (in_window firstDate lastDate) d).
    split.
    { apply align_v2_exact; try assumption.
      rewrite (lastDate_v2_three now _ _ _ L1 L2 L3). now rewrite EL. }
    set (W := fun x : Z => (firstDate <=? x) && (x <=? lastDate)).
    assert (HW : forall x, W x = true -> firstDate <= x <= lastDate).
    { unfold W. intros x Hx. apply andb_true_iff in Hx as [H1 H2].
      apply Z.leb_le in H1, H2. lia. }
    assert (Hcr : dates (filter (in_window firstDate lastDate) c)
                  = dates (filter (in_window firstDate lastDate) r)).
    { apply (window_dates Hday W HW Dc Dr F1 L1 F2 L2); lia. }
    assert (Hrd : dates (filter (in_window firstDate lastDate) r)
                  = dates (filter (in_window firstDate lastDate) d)).
    { apply (window_dates Hday W HW Dr Dd F2 L2 F3 L3); lia. }
    repeat split; auto.
  - rewrite (lastDate_v1_three _ _ _ L1 L2 L3) in HL. injection HL as EL.
    exists (filter (before_end firstDate lastDate) c),
           (filter (before_end firstDate lastDate) r),
           (filter (before_end firstDate lastDate) d).
    split.
    { apply align_v1_half_open; try assumption.
      rewrite (lastDate_v1_three _ _ _ L1 L2 L3). now rewrite EL. }
    set (W := fun x : Z => (firstDate <=? x) && (x <? lastDate)).
    assert (HW : forall x, W x = true -> firstDate <= x <= lastDate).
    { unfold W. intros x Hx. apply andb_true_iff in Hx as [H1 H2].
      apply Z.leb_le in H1. apply Z.ltb_lt in H2. lia. }
    assert (Hcr : dates (filter (before_end firstDate lastDate) c)
                  = dates (filter (before_end firstDate lastDate) r)).
    { apply (window_dates Hday W HW Dc Dr F1 L1 F2 L2); lia. }
    assert (Hrd : dates (filter (before_end firstDate lastDate) r)
                  = dates (filter (before_end firstDate lastDate) d)).
    { apply (window_dates Hday W HW Dr Dd F2 L2 F3 L3); lia. }
    repeat split; auto.
Qed.

Lemma aligned_on_common_window_witness :
  (exists c' r' d',
      align_v2 100 days_1_10 days_3_12 days_1_8
      = Resolved (mkData (Some c') (Some r') (Some d'))
      /\ dates c' = dates r' /\ dates r' = dates d'
      /\ List.length c' = List.length r' /\ List.length r' = List.length d')
  /\ (exists c' r' d',
         align_v1 days_1_10 days_3_12 days_1_8
         = Resolved (mkData (Some c') (Some r') (Some d'))
         /\ dates c' = dates r' /\ dates r' = dates d'
         /\ List.length c' = List.length r'
         /\ List.length r' = List.length d').
Proof.
  assert (Hinc : forall a b, a < b -> day_number a < day_number b)
    by (unfold day_number; intros a b H; exact H).
  assert (D1 : daily day_number days_1_10) by (exists 1; reflexivity).
  assert (D2 : daily day_number days_3_12) by (exists 3; reflexivity).
  assert (D3 : daily day_number days_1_8) by (exists 1; reflexivity).
  destruct (@aligned_on_common_window IntNumber day_number 100
              days_1_10 days_3_12 days_1_8 3 Hinc D1 D2 D3 eq_refl)
    as [H2 H1].
  split.
  - apply (H2 8); [reflexivity|lia].
  - apply (H1 8); [reflexivity|lia].
Defined.

(** * Further properties of the code *)

(** ** Trimming and splitting *)

Lemma trimStart_occurs c s : occurs c (trimStart s) = true -> occurs c s = true.
Proof.
  induction s as [|d s IH]; simpl; [easy|].
  destruct (is_white d); simpl.
  - intros H. rewrite (IH H). apply orb_true_r.
  - easy.
Qed.

Lemma trimEnd_occurs c s : occurs c (trimEnd s) = true -> occurs c s = true.
Proof.
  induction s as [|d s IH]; simpl; [easy|].
  destruct (trimEnd s) as [|e kept] eqn:E.
  - destruct (is_white d); simpl; [discriminate|].
    rewrite orb_false_r. intros ->. reflexivity.
  - cbn [occurs]. intros H. apply orb_true_iff in H as [H|H].
    + now rewrite H.
    + rewrite (IH H). apply orb_true_r.
Qed.

Lemma trim_occurs c s : occurs c (trim s) = true -> occurs c s = true.
Proof. intros H. now apply trimStart_occurs, trimEnd_occurs. Qed.

Lemma trim_keeps_absent c s : occurs c s = false -> occurs c (trim s) = false.
Proof.
  intros H. destruct (occurs c (trim s)) eqn:E; [|reflexivity].
  apply trim_occurs in E. congruence.
Qed.

Lemma trimStart_starts_clean s : starts_clean (trimStart s) = true.
Proof.
  induction s as [|c s IH]; simpl; [reflexivity|].
  destruct (is_white c) eqn:E; [exact IH|]. simpl. now rewrite E.
Qed.

Lemma trimStart_id s : starts_clean s = true -> trimStart s = s.
Proof.
  destruct s as [|c s]; simpl; [reflexivity|].
  now destruct (is_white c).
Qed.

Lemma trimEnd_id s : ends_clean s = true -> trimEnd s = s.
Proof.
  induction s as [|c s IH]; [reflexivity|].
  intros H. cbn [trimEnd]. destruct s as [|d s].
  - simpl in *. now destruct (is_white c).
  - change (ends_clean (String c (String d s))) with (ends_clean (String d s))
      in H.
    now rewrite (IH H).
Qed.

Lemma trimEnd_ends_clean s : ends_clean (trimEnd s) = true.
Proof.
  induction s as [|c s IH]; [reflexivity|]. cbn [trimEnd].
  destruct (trimEnd s) as [|d kept] eqn:E.
  - destruct (is_white c) eqn:W; simpl; [reflexivity|now rewrite W].
  - exact IH.
Qed.

Lemma trimEnd_starts_clean s :
  starts_clean s = true -> starts_clean (trimEnd s) = true.
Proof.
  destruct s as [|c s]; [reflexivity|]. cbn [trimEnd starts_clean].
  intros H. destruct (trimEnd s); [|exact H].
  destruct (is_white c) eqn:W; [discriminate|]. simpl. now rewrite W.
Qed.

Lemma trim_clean s : starts_clean (trim s) = true /\ ends_clean (trim s) = true.
Proof.
  unfold trim. split.
  - apply trimEnd_starts_clean, trimStart_starts_clean.
  - apply trimEnd_ends_clean.
Qed.

Lemma trim_id s :
  starts_clean s = true -> ends_clean s = true -> trim s = s.
Proof.
  intros H1 H2. unfold trim. rewrite (trimStart_id _ H1). now apply trimEnd_id.
Qed.

Lemma trim_trim s : trim (trim s) = trim s.
Proof. destruct (trim_clean s). now apply trim_id. Qed.

Lemma split_on_nonempty sep s : split_on sep s <> [].
Proof.
  destruct s as [|c s]; simpl; [discriminate|].
  destruct (Ascii.eqb c sep); [discriminate|].
  destruct (split_on sep s); discriminate.
Qed.

(** A character of a piece is a character of the text, and no piece holds
    the separator. *)
Lemma split_on_occurs sep c s :
  Forall (fun piece => occurs c piece = true -> occurs c s = true)
         (split_on sep s).
Proof.
  induction s as [|d s IH]; simpl.
  - constructor; [easy|constructor].
  - destruct (Ascii.eqb d sep).
    + constructor; [easy|].
      eapply Forall_impl; [|exact IH]. simpl. intros p Hp H.
      rewrite (Hp H). apply orb_true_r.
    + destruct (split_on sep s) as [|p ps].
      * constructor; [|constructor]. simpl. rewrite orb_false_r.
        intros ->. reflexivity.
      * inversion IH as [|? ? Hp Hps]; subst. constructor.
        -- simpl. intros H. apply orb_true_iff in H as [H|H].
           ++ now rewrite H.
           ++ rewrite (Hp H). apply orb_true_r.
        -- eapply Forall_impl; [|exact Hps]. simpl. intros q Hq H.
           rewrite (Hq H). apply orb_true_r.
Qed.

Lemma split_on_no_sep sep s :
  Forall (fun piece => occurs sep piece = false) (split_on sep s).
Proof.
  induction s as [|d s IH]; simpl.
  - constructor; [reflexivity|constructor].
  - destruct (Ascii.eqb d sep) eqn:E.
    + constructor; [reflexivity|exact IH].
    + destruct (split_on sep s) as [|p ps].
      * constructor; [|constructor]. simpl. now rewrite E.
      * inversion IH as [|? ? Hp Hps]; subst. constructor; [|exact Hps].
        simpl. now rewrite E, Hp.
Qed.

Lemma split_on_keeps_absent sep c s :
  occurs c s = false ->
  Forall (fun piece => occurs c piece = false) (split_on sep s).
Proof.
  intros H. eapply Forall_impl; [|apply (split_on_occurs sep c s)].
  simpl. intros p Hp. destruct (occurs c p); [|reflexivity].
  rewrite Hp in H; [discriminate|reflexivity].
Qed.

(** ** [toCSV] *)

Lemma parse_chunk_nonempty chunk : parse_chunk chunk <> [].
Proof.
  unfold parse_chunk. intros H. apply map_eq_nil in H.
  now apply split_on_nonempty in H.
Qed.

Lemma parse_chunk_rows chunk :
  Forall (fun row => row <> [] /\ Forall (fun cell => clean_cell cell = true) row)
         (parse_chunk chunk).
Proof.
  unfold parse_chunk. apply Forall_map.
  pose proof (split_on_no_sep LF (trim chunk)) as Hrows.
  eapply Forall_impl; [|exact Hrows]. simpl. intros row Hrow. split.
  - intros H. apply map_eq_nil in H. now apply split_on_nonempty in H.
  - apply Forall_map.
    pose proof (split_on_no_sep semicolon (trim row)) as Hsemi.
    pose proof (split_on_keeps_absent semicolon LF (trim row)
                  (trim_keeps_absent LF row Hrow)) as Hlf.
    rewrite Forall_forall in *. intros piece Hin.
    unfold clean_cell. rewrite trim_trim, String.eqb_refl.
    rewrite (trim_keeps_absent _ _ (Hsemi _ Hin)).
    rewrite (trim_keeps_absent _ _ (Hlf _ Hin)). reflexivity.
Qed.

(** X1: every row that [toCSV] produces has at least one cell, every cell is
    trimmed and holds neither a semicolon nor a line feed, and every chunk
    of the stream, even an empty one, contributes at least one row. *)
Theorem toCSV_rows_and_cells (chunks : list string) :
  Forall (fun row => row <> [] /\ Forall (fun cell => clean_cell cell = true) row)
         (toCSV chunks)
  /\ (List.length chunks <= List.length (toCSV chunks))%nat.
Proof.
  unfold toCSV. split.
  - induction chunks as [|chunk chunks IH]; simpl; [constructor|].
    apply Forall_app. split; [apply parse_chunk_rows|exact IH].
  - induction chunks as [|chunk chunks IH]; simpl; [lia|].
    rewrite length_app.
    pose proof (parse_chunk_nonempty chunk) as H.
    destruct (parse_chunk chunk); [congruence|]. simpl. lia.
Qed.

(** ** Reading back a printed table *)

Lemma split_on_single sep p :
  occurs sep p = false -> split_on sep p = [p].
Proof.
  induction p as [|c p IH]; simpl; [reflexivity|].
  intros H. apply orb_false_iff in H as [Hc Hp].
  now rewrite Hc, (IH Hp).
Qed.

Lemma split_on_app sep p rest :
  occurs sep p = false ->
  split_on sep (p ++ String sep rest) = p :: split_on sep rest.
Proof.
  induction p as [|c p IH]; simpl.
  - intros _. now rewrite Ascii.eqb_refl.
  - intros H. apply orb_false_iff in H as [Hc Hp].
    now rewrite Hc, (IH Hp).
Qed.

Lemma split_on_join sep pieces :
  pieces <> [] -> Forall (fun p => occurs sep p = false) pieces ->
  split_on sep (join sep pieces) = pieces.
Proof.
  induction pieces as [|p pieces IH]; intros Hne Hall; [congruence|].
  inversion Hall as [|? ? Hp Hrest]; subst.
  destruct pieces as [|q pieces].
  - simpl. now apply split_on_single.
  - change (join sep (p :: q :: pieces))
      with (p ++ String sep (join sep (q :: pieces)))%string.
    rewrite split_on_app by exact Hp. f_equal.
    apply IH; [discriminate|exact Hrest].
Qed.

Lemma occurs_app c p q :
  occurs c (p ++ q) = occurs c p || occurs c q.
Proof.
  induction p as [|d p IH]; simpl; [reflexivity|].
  now rewrite IH, orb_assoc.
Qed.

Lemma occurs_join c sep pieces :
  Ascii.eqb sep c = false ->
  Forall (fun p => occurs c p = false) pieces ->
  occurs c (join sep pieces) = false.
Proof.
  intros Hsep. induction 1 as [|p pieces Hp Hrest IH]; [reflexivity|].
  destruct pieces as [|q pieces]; [exact Hp|].
  change (join sep (p :: q :: pieces))
    with (p ++ String sep (join sep (q :: pieces)))%string.
  rewrite occurs_app, Hp. cbn [occurs]. now rewrite Hsep, IH.
Qed.

Lemma starts_clean_app p q :
  p <> EmptyString -> starts_clean (p ++ q) = starts_clean p.
Proof. destruct p; [congruence|reflexivity]. Qed.

Lemma ends_clean_app p c q :
  ends_clean (p ++ String c q) = ends_clean (String c q).
Proof.
  induction p as [|d p IH]; [reflexivity|].
  change (String d p ++ String c q)%string with (String d (p ++ String c q)).
  destruct (p ++ String c q)%string as [|e r] eqn:E.
  - destruct p; discriminate.
  - rewrite <- IH. reflexivity.
Qed.

Lemma join_not_empty sep pieces final :
  final <> EmptyString -> join sep (pieces ++ [final]) <> EmptyString.
Proof.
  intros Hf. induction pieces as [|p pieces IH]; [exact Hf|].
  change ((p :: pieces) ++ [final]) with (p :: (pieces ++ [final])).
  destruct (pieces ++ [final]) as [|q rest] eqn:E.
  - destruct pieces; discriminate.
  - change (join sep (p :: q :: rest))
      with (p ++ String sep (join sep (q :: rest)))%string.
    destruct p; discriminate.
Qed.

(** Joining with a separator that is not white space keeps clean ends. *)
Lemma join_clean sep pieces :
  is_white sep = false ->
  Forall (fun p => starts_clean p = true /\ ends_clean p = true) pieces ->
  starts_clean (join sep pieces) = true /\ ends_clean (join sep pieces) = true.
Proof.
  intros Hsep. induction 1 as [|p pieces [Hp1 Hp2] Hrest [IH1 IH2]];
    [split; reflexivity|].
  destruct pieces as [|q pieces]; [split; assumption|].
  change (join sep (p :: q :: pieces))
    with (p ++ String sep (join sep (q :: pieces)))%string.
  split.
  - destruct p as [|c p]; [simpl; now rewrite Hsep|exact Hp1].
  - rewrite ends_clean_app.
    destruct (join sep (q :: pieces)) as [|e r] eqn:E.
    + simpl. now rewrite Hsep.
    + exact IH2.
Qed.

(** Joining lines keeps clean ends when the first and the last line are not
    empty. *)
Lemma lines_clean first middle final :
  first <> EmptyString -> final <> EmptyString ->
  starts_clean first = true -> ends_clean final = true ->
  starts_clean (join LF (first :: middle ++ [final])) = true
  /\ ends_clean (join LF (first :: middle ++ [final])) = true.
Proof.
  intros Hf Hl Hs He.
  assert (Hne : join LF (middle ++ [final]) <> EmptyString)
    by now apply join_not_empty.
  assert (Hend : ends_clean (join LF (middle ++ [final])) = true).
  { clear Hne. induction middle as [|m middle IH]; [exact He|].
    change ((m :: middle) ++ [final]) with (m :: (middle ++ [final])).
    pose proof (@join_not_empty LF middle final Hl) as Hne.
    destruct (middle ++ [final]) as [|q rest] eqn:E;
      [destruct middle; discriminate|].
    change (join LF (m :: q :: rest))
      with (m ++ String LF (join LF (q :: rest)))%string.
    rewrite ends_clean_app.
    destruct (join LF (q :: rest)) as [|e r] eqn:Ej; [congruence|].
    exact IH. }
  destruct (middle ++ [final]) as [|q rest] eqn:E;
    [destruct middle; discriminate|].
  change (join LF (first :: q :: rest))
    with (first ++ String LF (join LF (q :: rest)))%string.
  split.
  - now rewrite starts_clean_app.
  - rewrite ends_clean_app.
    destruct (join LF (q :: rest)) as [|e r] eqn:Ej; [congruence|].
    exact Hend.
Qed.

Lemma clean_cell_inv cell :
  clean_cell cell = true ->
  trim cell = cell /\ occurs semicolon cell = false /\ occurs LF cell = false.
Proof.
  unfold clean_cell. intros H.
  apply andb_true_iff in H as [H H3]. apply andb_true_iff in H as [H1 H2].
  apply String.eqb_eq in H1. apply negb_true_iff in H2, H3. auto.
Qed.

Lemma clean_cell_ends cell :
  clean_cell cell = true ->
  starts_clean cell = true /\ ends_clean cell = true.
Proof.
  intros H. apply clean_cell_inv in H as [H _]. rewrite <- H. apply trim_clean.
Qed.

(** A row of clean cells is read back from its text. *)
Lemma read_row cells :
  cells <> [] -> Forall (fun cell => clean_cell cell = true) cells ->
  map trim (split_on semicolon (trim (join semicolon cells))) = cells.
Proof.
  intros Hne Hall.
  assert (Hends : Forall (fun p => starts_clean p = true /\ ends_clean p = true)
                         cells).
  { eapply Forall_impl; [|exact Hall]. intros c. apply clean_cell_ends. }
  destruct (@join_clean semicolon cells eq_refl Hends) as [H1 H2].
  rewrite trim_id by assumption.
  rewrite split_on_join; [|exact Hne|].
  - clear Hne Hends H1 H2. induction Hall as [|c cells Hc _ IH]; [reflexivity|].
    simpl. rewrite IH. apply clean_cell_inv in Hc as [-> _]. reflexivity.
  - eapply Forall_impl; [|exact Hall]. intros c Hc.
    now apply clean_cell_inv in Hc.
Qed.

Lemma row_text_no_LF cells :
  Forall (fun cell => clean_cell cell = true) cells ->
  occurs LF (join semicolon cells) = false.
Proof.
  intros Hall. apply occurs_join; [reflexivity|].
  eapply Forall_impl; [|exact Hall]. intros c Hc.
  now apply clean_cell_inv in Hc.
Qed.

Lemma row_text_not_empty cells :
  cells <> [] -> cells <> [EmptyString] -> join semicolon cells <> EmptyString.
Proof.
  destruct cells as [|c [|d cells]]; intros H1 H2.
  - congruence.
  - simpl. intros ->. congruence.
  - change (join semicolon (c :: d :: cells))
      with (c ++ String semicolon (join semicolon (d :: cells)))%string.
    destruct c; discriminate.
Qed.

(** X2: round trip.  A table whose rows have at least one cell, whose cells
    are trimmed and free of semicolons and line feeds, and whose first and
    last rows are not a single empty cell, is read back by [toCSV] from its
    text delivered as one chunk. *)
Theorem toCSV_unparse (first : list string) (middle : list (list string))
        (final : list string) :
  Forall (fun row => row <> [] /\ Forall (fun cell => clean_cell cell = true) row)
         (first :: middle ++ [final]) ->
  first <> [EmptyString] -> final <> [EmptyString] ->
  toCSV [unparse (first :: middle ++ [final])] = first :: middle ++ [final].
Proof.
  intros Hall Hfirst Hfinal.
  set (table := first :: middle ++ [final]) in *.
  assert (Hfirst' : first <> [] /\ Forall (fun c => clean_cell c = true) first).
  { now apply Forall_inv in Hall. }
  assert (Hfinal' : final <> [] /\ Forall (fun c => clean_cell c = true) final).
  { rewrite Forall_forall in Hall. apply Hall. unfold table.
    right. apply in_or_app. right. now left. }
  assert (Hclean : forall row, In row table ->
             starts_clean (join semicolon row) = true
             /\ ends_clean (join semicolon row) = true).
  { intros row Hin. rewrite Forall_forall in Hall.
    destruct (Hall _ Hin) as [_ Hcells].
    apply join_clean; [reflexivity|].
    eapply Forall_impl; [|exact Hcells]. intros c. apply clean_cell_ends. }
  unfold toCSV. cbn [flat_map]. rewrite app_nil_r. unfold parse_chunk, unparse.
  assert (Htext : map (join semicolon) table
                  = join semicolon first
                    :: map (join semicolon) middle ++ [join semicolon final]).
  { unfold table. simpl. now rewrite map_app. }
  destruct (@lines_clean (join semicolon first)
                         (map (join semicolon) middle)
                         (join semicolon final)) as [H1 H2].
  - apply row_text_not_empty; tauto.
  - apply row_text_not_empty; tauto.
  - apply Hclean. now left.
  - apply Hclean. unfold table. right. apply in_or_app. right. now left.
  - rewrite <- Htext in H1, H2. rewrite trim_id by assumption.
    rewrite split_on_join.
    + rewrite map_map. rewrite <- (map_id table) at 2.
      apply map_ext_in. intros row Hin. rewrite Forall_forall in Hall.
      destruct (Hall _ Hin) as [Hne Hcells]. now apply read_row.
    + unfold table. discriminate.
    + apply Forall_map. eapply Forall_impl; [|exact Hall].
      intros row [_ Hcells]. now apply row_text_no_LF.
Qed.

Lemma toCSV_unparse_witness :
  toCSV [unparse [["Datum"; "Faelle"]; ["01.03.2020"; ""]; [""]; ["x"]]]
  = [["Datum"; "Faelle"]; ["01.03.2020"; ""]; [""]; ["x"]].
Proof.
  apply (@toCSV_unparse ["Datum"; "Faelle"] [["01.03.2020"; ""]; [""]] ["x"]).
  - repeat constructor; discriminate.
  - discriminate.
  - discriminate.
Defined.

(** ** A chunk boundary inside a line *)

Lemma split_on_length_app sep x y :
  (List.length (split_on sep (x ++ y)) + 1
   = List.length (split_on sep x) + List.length (split_on sep y))%nat.
Proof.
  induction x as [|c x IH]; [simpl; lia|].
  change (String c x ++ y)%string with (String c (x ++ y)).
  cbn [split_on]. destruct (Ascii.eqb c sep).
  - simpl. lia.
  - pose proof (split_on_nonempty sep (x ++ y)) as H1.
    pose proof (split_on_nonempty sep x) as H2.
    destruct (split_on sep (x ++ y)); [congruence|].
    destruct (split_on sep x); [congruence|]. simpl in *. lia.
Qed.

Lemma trimStart_app a b :
  a <> EmptyString -> ends_clean a = true ->
  trimStart (a ++ b) = (trimStart a ++ b)%string
  /\ ends_clean (trimStart a) = true.
Proof.
  induction a as [|c a IH]; intros Hne Hend; [congruence|].
  change (String c a ++ b)%string with (String c (a ++ b)).
  cbn [trimStart]. destruct (is_white c) eqn:W.
  - destruct a as [|d a].
    + simpl in Hend. rewrite W in Hend. discriminate.
    + apply IH; [discriminate|exact Hend].
  - split; [reflexivity|exact Hend].
Qed.

Lemma trimEnd_not_empty b :
  b <> EmptyString -> starts_clean b = true -> trimEnd b <> EmptyString.
Proof.
  destruct b as [|c b]; intros Hne Hs; [congruence|]. cbn [trimEnd].
  simpl in Hs. apply negb_true_iff in Hs.
  destruct (trimEnd b); [rewrite Hs|]; discriminate.
Qed.

Lemma trimEnd_app u b :
  trimEnd b <> EmptyString -> trimEnd (u ++ b) = (u ++ trimEnd b)%string.
Proof.
  intros Hb. induction u as [|c u IH]; [reflexivity|].
  change (String c u ++ b)%string with (String c (u ++ b)).
  cbn [trimEnd]. rewrite IH.
  change (String c u ++ trimEnd b)%string with (String c (u ++ trimEnd b)).
  destruct (u ++ trimEnd b)%string as [|d r] eqn:E; [|reflexivity].
  destruct u; [simpl in E; congruence|discriminate].
Qed.

(** X3: the rows depend on how the stream is cut into chunks.  When a chunk
    boundary falls inside a line (the first chunk ends, and the second
    starts, with a character that is not white space), [toCSV] produces one
    row more than it does from the same text delivered as one chunk. *)
Theorem toCSV_chunk_boundary (a b : string) :
  a <> EmptyString -> b <> EmptyString ->
  ends_clean a = true -> starts_clean b = true ->
  List.length (toCSV [a; b]) = S (List.length (toCSV [(a ++ b)%string])).
Proof.
  intros Ha Hb Hea Hsb.
  destruct (@trimStart_app a b Ha Hea) as [Hstart Hends].
  pose proof (@trimEnd_not_empty b Hb Hsb) as Hkeep.
  assert (Hab : trim (a ++ b) = (trim a ++ trim b)%string).
  { unfold trim. rewrite Hstart. rewrite trimEnd_app by exact Hkeep.
    rewrite (@trimEnd_id (trimStart a)) by exact Hends.
    rewrite (@trimStart_id b) by exact Hsb. reflexivity. }
  unfold toCSV. cbn [flat_map]. rewrite !app_nil_r, length_app.
  unfold parse_chunk. rewrite !length_map, Hab.
  pose proof (split_on_length_app LF (trim a) (trim b)). lia.
Qed.

Lemma toCSV_chunk_boundary_witness :
  List.length (toCSV [("a;1" ++ String LF "b")%string; ";2"])
  = S (List.length (toCSV [(("a;1" ++ String LF "b") ++ ";2")%string])).
Proof.
  apply (@toCSV_chunk_boundary ("a;1" ++ String LF "b")%string ";2");
    [discriminate|discriminate|reflexivity|reflexivity].
Defined.

(** ** [orZero] and the values of the timelines *)

(** X4: as soon as the host's [0] is not NaN, [orZero] never returns NaN and
    applying it twice is applying it once. *)
Theorem orZero_no_NaN (JS : JSNumber) :
  isNaN zero = false ->
  (forall v n, orZero v = num n -> isNaN n = false)
  /\ (forall v, orZero (orZero v) = orZero v).
Proof.
  intros Hz.
  assert (H1 : forall v n, orZero v = num n -> isNaN n = false).
  { intros v n. destruct v as [|m|s]; unfold orZero.
    - discriminate.
    - destruct (isNaN m) eqn:E; intros H; injection H as <-; assumption.
    - destruct (isNaN (Number s)) eqn:E; intros H; injection H as <-;
        assumption. }
  split; [exact H1|].
  intros v. destruct (orZero v) as [|n|s] eqn:E.
  - reflexivity.
  - unfold orZero. now rewrite (H1 _ _ E).
  - now apply orZero_not_str in E.
Qed.

Lemma orZero_no_NaN_witness :
  orZero (JS := IntNumber) (orZero (str "<5")) = orZero (str "<5").
Proof. apply (proj2 (@orZero_no_NaN IntNumber eq_refl)). Defined.

Lemma nth_error_mapi_at (T U : Type) (f : T -> nat -> U) a k i :
  nth_error (mapi_at f a k) i
  = option_map (fun x => f x (k + i)%nat) (nth_error a i).
Proof.
  revert k i. induction a as [|x a IH]; intros k [|i]; simpl; try reflexivity.
  - now rewrite Nat.add_0_r.
  - rewrite IH. now replace (S k + i)%nat with (k + S i)%nat by lia.
Qed.

Section PoisonFacts.
Context {JS : JSNumber}.
Hypothesis add_NaN_right : forall x, isNaN (add x NaN) = true.
Hypothesis add_NaN_left : forall x y, isNaN x = true -> isNaN (add x y) = true.

Lemma add_row_keeps_NaN sum row :
  isNaN sum = true -> isNaN (add_row sum row) = true.
Proof.
  intros H. unfold add_row, plus.
  destruct (orZero (cell row 1)) as [|n|s] eqn:E.
  - apply add_NaN_right.
  - now apply add_NaN_left.
  - now apply orZero_not_str in E.
Qed.

Lemma fold_add_row_keeps_NaN rows_ sum :
  isNaN sum = true -> isNaN (fold_left add_row rows_ sum) = true.
Proof.
  revert sum. induction rows_ as [|row rows_ IH]; intros sum H; [exact H|].
  simpl. apply IH. now apply add_row_keeps_NaN.
Qed.

Lemma short_row_poisons (arr : CSV) (j i : nat) row :
  nth_error arr j = Some row -> (List.length row < 2)%nat -> (j <= i)%nat ->
  isNaN (fold_left add_row (firstn (S i) arr) zero) = true.
Proof.
  intros Hj Hshort Hji.
  assert (Hsplit : firstn (S i) arr
                   = firstn j arr ++ row :: firstn (i - j) (skipn (S j) arr)).
  { rewrite <- (firstn_skipn_middle _ _ Hj) at 1.
    rewrite firstn_app, length_firstn.
    assert (Hlt : (j < List.length arr)%nat)
      by (apply nth_error_Some; congruence).
    rewrite Nat.min_l by lia.
    rewrite firstn_firstn, Nat.min_r by lia.
    replace (S i - j)%nat with (S (i - j)) by lia. reflexivity. }
  rewrite Hsplit, fold_left_app. cbn [fold_left].
  apply fold_add_row_keeps_NaN. unfold add_row at 1.
  assert (Hcell : cell row 1 = undefined).
  { unfold cell, at_. destruct (nth_error row 1) eqn:E; [|reflexivity].
    assert (1 < List.length row)%nat by (apply nth_error_Some; congruence).
    lia. }
  rewrite Hcell. apply add_NaN_right.
Qed.
End PoisonFacts.

(** X5: a row without a value cell poisons the running sum.  On a host
    where adding NaN gives NaN, if row [j] after the header has fewer than
    two cells, every point of the cases timeline from index [j] on carries
    NaN, in both revisions. *)
Theorem short_row_poisons_cases (JS : JSNumber)
        (parseTime : string -> option Date) (csv : CSV) (j i : nat)
        (row : list string) (p : TimePoint) :
  (forall x, isNaN (add x NaN) = true) ->
  (forall x y, isNaN x = true -> isNaN (add x y) = true) ->
  nth_error (tl csv) j = Some row -> (List.length row < 2)%nat ->
  (j <= i)%nat ->
  nth_error (cases_timeline_v2 parseTime csv) i = Some p ->
  nth_error (cases_timeline_v1 parseTime csv) i = Some p
  /\ exists n, snd p = num n /\ isNaN n = true.
Proof.
  intros H1 H2 Hj Hshort Hji Hp.
  rewrite <- cases_timelines_agree in Hp. split; [exact Hp|].
  rewrite cases_timeline_v1_unfold, nth_error_mapi_at in Hp.
  destruct (nth_error (tl csv) i) as [r|]; [|discriminate].
  simpl in Hp. injection Hp as <-. eexists. split; [reflexivity|].
  now apply (short_row_poisons H1 H2 (tl csv) Hj).
Qed.

Lemma short_row_poisons_cases_witness :
  nth_error
    (cases_timeline_v1 (JS := IntNumber) parseDay
       [["Datum"; "Faelle"]; ["01.03.2020"; "5"]; ["02.03.2020"];
        ["03.03.2020"; "7"]]) 2
  = Some (3, num (JS := IntNumber) NotANumber)
  /\ exists n,
      snd (3, num (JS := IntNumber) NotANumber) = num n /\ isNaN n = true.
Proof.
  apply (@short_row_poisons_cases IntNumber parseDay
           [["Datum"; "Faelle"]; ["01.03.2020"; "5"]; ["02.03.2020"];
            ["03.03.2020"; "7"]]
           1%nat 2%nat ["02.03.2020"] (3, num (JS := IntNumber) NotANumber)).
  - intros [|x]; reflexivity.
  - intros [|x] y H; [reflexivity|discriminate].
  - reflexivity.
  - simpl; lia.
  - lia.
  - reflexivity.
Defined.

(** ** The entry handler *)

Lemma on_entry_revisions_agree (JS : JSNumber)
      (parseTime : string -> option Date) result entry :
  on_entry_v1 parseTime result entry = on_entry_v2 parseTime result entry.
Proof.
  unfold on_entry_v1, on_entry_v2. rewrite cases_timelines_agree.
  destruct (0 <=? indexOf (fileName entry) "Epikurve"); [reflexivity|].
  destruct (0 <=? indexOf (fileName entry) "GenesenTimeline"); [reflexivity|].
  destruct (0 <=? indexOf (fileName entry) "TodesfaelleTimeline");
    reflexivity.
Qed.

(** X6: the two revisions of the entry handler (the three-way [else if]
    chain, and the chain with the computed key) push the same results for
    every archive: the same keys with the same timelines in the same
    order. *)
Theorem entry_handlers_agree (JS : JSNumber)
        (parseTime : string -> option Date) (entries : list Entry)
        (result : Result) :
  fold_left (on_entry_v1 parseTime) entries result
  = fold_left (on_entry_v2 parseTime) entries result.
Proof.
  revert result. induction entries as [|e entries IH]; intros result;
    [reflexivity|].
  simpl. rewrite on_entry_revisions_agree. apply IH.
Qed.

Lemma prefix_contains needle s :
  prefix needle s = true <-> exists after, s = (needle ++ after)%string.
Proof.
  revert s. induction needle as [|c needle IH]; intros s.
  - split; [intros _; now exists s|intros _; now destruct s].
  - destruct s as [|d s]; cbn [prefix].
    + split; [discriminate|intros [after H]; discriminate].
    + destruct (ascii_dec c d) as [->|Hne].
      * rewrite IH. split; intros [after H]; exists after.
        -- simpl. now rewrite H.
        -- simpl in H. now injection H.
      * split; [discriminate|].
        intros [after H]. simpl in H. injection H as H _. congruence.
Qed.

Lemma indexOf_at_contains needle s i :
  0 <= i ->
  (i <= indexOf_at needle s i /\ contains s needle)
  \/ (indexOf_at needle s i = -1 /\ ~ contains s needle).
Proof.
  revert i. induction s as [|c s IH]; intros i Hi; cbn [indexOf_at].
  - destruct (prefix needle "") eqn:E.
    + left. split; [lia|]. apply prefix_contains in E as [after E].
      exists EmptyString, after. exact E.
    + right. split; [reflexivity|]. intros [before [after H]].
      destruct before; [|discriminate]. simpl in H.
      assert (prefix needle "" = true)
        by (apply prefix_contains; now exists after).
      congruence.
  - destruct (prefix needle (String c s)) eqn:E.
    + left. split; [lia|]. apply prefix_contains in E as [after E].
      exists EmptyString, after. exact E.
    + destruct (IH (i + 1)) as [[Hle [before [after H]]]|[Hno Hnot]];
        [lia| |].
      * left. split; [lia|]. exists (String c before), after.
        simpl. now rewrite H.
      * right. split; [exact Hno|]. intros [before [after H]].
        destruct before as [|d before].
        -- simpl in H.
           assert (prefix needle (String c s) = true)
             by (apply prefix_contains; now exists after).
           congruence.
        -- simpl in H. injection H as _ H. apply Hnot.
           now exists before, after.
Qed.

Lemma indexOf_contains s needle : 0 <= indexOf s needle <-> contains s needle.
Proof.
  unfold indexOf.
  destruct (@indexOf_at_contains needle s 0) as [[H1 H2]|[H1 H2]]; [lia| |].
  - tauto.
  - rewrite H1. split; [lia|tauto].
Qed.

(** X7: an entry is recognised exactly when its file name holds
    ["Epikurve"], ["GenesenTimeline"] or ["TodesfaelleTimeline"] as a
    substring, anywhere in the name; and a name that holds ["Epikurve"] is
    filed under [cases] whatever else it holds. *)
Theorem recognised_by_substring (JS : JSNumber)
        (parseTime : string -> option Date) (entry : Entry) :
  (recognised entry = true <->
   contains (fileName entry) "Epikurve"
   \/ contains (fileName entry) "GenesenTimeline"
   \/ contains (fileName entry) "TodesfaelleTimeline")
  /\ (contains (fileName entry) "Epikurve" ->
      forall result,
        on_entry_v2 parseTime result entry
        = result ++ [(cases, cases_timeline_v2 parseTime (rows entry))]).
Proof.
  split.
  - unfold recognised. rewrite !orb_true_iff, !Z.leb_le, !indexOf_contains.
    tauto.
  - intros H result. unfold on_entry_v2.
    apply indexOf_contains, Z.leb_le in H. now rewrite H.
Qed.

Lemma recognised_by_substring_witness :
  on_entry_v2 (JS := IntNumber) parseDay []
              (mkEntry "Epikurve_GenesenTimeline.csv" increments)
  = [] ++ [(cases, cases_timeline_v2 parseDay increments)].
Proof.
  apply (proj2 (@recognised_by_substring IntNumber parseDay
                  (mkEntry "Epikurve_GenesenTimeline.csv" increments))).
  exists EmptyString, "_GenesenTimeline.csv". reflexivity.
Defined.

(** ** The end handler: rejecting, throwing, resolving *)

Section SettleFacts.
Context {JS : JSNumber}.
Variable parseTime : string -> option Date.

Lemma on_end_v1_three_settles result :
  List.length result = 3%nat ->
  (on_end_v1 result = Uncaught /\ exists e, In e result /\ snd e = [])
  \/ (exists data, on_end_v1 result = Resolved data
                   /\ Forall (fun e => snd e <> []) result).
Proof.
  intros Hlen.
  destruct result as [|[k1 t1] [|[k2 t2] [|[k3 t3] [|? ?]]]]; try discriminate.
  destruct t1 as [|p1 t1];
    [left; split; [reflexivity|eexists; split; [left; reflexivity|reflexivity]]|].
  destruct t2 as [|p2 t2].
  { left. split; [destruct p1; reflexivity|].
    eexists. split; [right; left; reflexivity|reflexivity]. }
  destruct t3 as [|p3 t3].
  { left. split; [destruct p1, p2; reflexivity|].
    eexists. split; [right; right; left; reflexivity|reflexivity]. }
  right.
  destruct (@first_time_some _ (k1, p1 :: t1)) as [f1 F1]; [discriminate|].
  destruct (@first_time_some _ (k2, p2 :: t2)) as [f2 F2]; [discriminate|].
  destruct (@first_time_some _ (k3, p3 :: t3)) as [f3 F3]; [discriminate|].
  destruct (@last_time_some _ (k1, p1 :: t1)) as [l1 L1]; [discriminate|].
  destruct (@last_time_some _ (k2, p2 :: t2)) as [l2 L2]; [discriminate|].
  destruct (@last_time_some _ (k3, p3 :: t3)) as [l3 L3]; [discriminate|].
  eexists. split.
  - apply (@on_end_v1_three _ _ _ _ _ _ _ _ _ _ _ _ _ F1 F2 F3 L1 L2 L3).
  - repeat constructor; discriminate.
Qed.

Lemma on_end_v2_three_settles now result :
  List.length result = 3%nat ->
  (on_end_v2 now result = Uncaught /\ exists e, In e result /\ snd e = [])
  \/ (exists data, on_end_v2 now result = Resolved data
                   /\ Forall (fun e => snd e <> []) result).
Proof.
  intros Hlen.
  destruct result as [|[k1 t1] [|[k2 t2] [|[k3 t3] [|? ?]]]]; try discriminate.
  destruct t1 as [|p1 t1];
    [left; split; [reflexivity|eexists; split; [left; reflexivity|reflexivity]]|].
  destruct t2 as [|p2 t2].
  { left. split; [destruct p1; reflexivity|].
    eexists. split; [right; left; reflexivity|reflexivity]. }
  destruct t3 as [|p3 t3].
  { left. split; [destruct p1, p2; reflexivity|].
    eexists. split; [right; right; left; reflexivity|reflexivity]. }
  right.
  destruct (@first_time_some _ (k1, p1 :: t1)) as [f1 F1]; [discriminate|].
  destruct (@first_time_some _ (k2, p2 :: t2)) as [f2 F2]; [discriminate|].
  destruct (@first_time_some _ (k3, p3 :: t3)) as [f3 F3]; [discriminate|].
  destruct (@last_time_some _ (k1, p1 :: t1)) as [l1 L1]; [discriminate|].
  destruct (@last_time_some _ (k2, p2 :: t2)) as [l2 L2]; [discriminate|].
  destruct (@last_time_some _ (k3, p3 :: t3)) as [l3 L3]; [discriminate|].
  eexists. split.
  - apply (@on_end_v2_three _ now _ _ _ _ _ _ _ _ _ _ _ _ F1 F2 F3 L1 L2 L3).
  - repeat constructor; discriminate.
Qed.

(** The lengths of the timelines pushed by the entry handler: one timeline
    per recognised entry, one point per row after the header. *)
Lemma on_entry_v2_timeline result entry :
  map (fun e => List.length (snd e)) (on_entry_v2 parseTime result entry)
  = map (fun e => List.length (snd e)) result
    ++ (if recognised entry then [(List.length (rows entry) - 1)%nat] else []).
Proof.
  assert (Hc : List.length (cases_timeline_v2 parseTime (rows entry))
               = (List.length (rows entry) - 1)%nat).
  { rewrite <- cases_timelines_agree, cases_timeline_v1_unfold, mapi_at_length.
    destruct (rows entry); simpl; lia. }
  assert (Hp : List.length (plain_timeline parseTime (rows entry))
               = (List.length (rows entry) - 1)%nat).
  { unfold plain_timeline. rewrite slice_from_1, length_map.
    destruct (rows entry); simpl; lia. }
  unfold on_entry_v2, recognised.
  destruct (0 <=? indexOf (fileName entry) "Epikurve");
    [|destruct (0 <=? indexOf (fileName entry) "GenesenTimeline");
      [|destruct (0 <=? indexOf (fileName entry) "TodesfaelleTimeline")]];
    simpl; rewrite ?map_app; simpl; rewrite ?Hc, ?Hp, ?app_nil_r; reflexivity.
Qed.

Lemma pushed_timelines entries result :
  map (fun e => List.length (snd e))
      (fold_left (on_entry_v2 parseTime) entries result)
  = map (fun e => List.length (snd e)) result
    ++ map (fun e => (List.length (rows e) - 1)%nat)
           (filter recognised entries).
Proof.
  revert result. induction entries as [|e entries IH]; intros result; simpl.
  - now rewrite app_nil_r.
  - rewrite IH, on_entry_v2_timeline. rewrite <- app_assoc.
    destruct (recognised e); reflexivity.
Qed.
End SettleFacts.

(** X8: how [fetchData] settles, in both revisions.  It rejects exactly when
    the number of recognised entries differs from three (also when there are
    more).  With exactly three it throws, leaving the promise unsettled,
    exactly when one of them has no row after the header, and resolves
    otherwise. *)
Theorem fetchData_settles (JS : JSNumber) (parseTime : string -> option Date)
        (now : Date) (entries : list Entry) :
  let short := exists e, In e entries /\ recognised e = true
                         /\ (List.length (rows e) <= 1)%nat in
  ((exists r, fetchData_v2 parseTime now entries = Rejected r)
   <-> List.length (filter recognised entries) <> 3%nat)
  /\ (fetchData_v2 parseTime now entries = Uncaught
      <-> List.length (filter recognised entries) = 3%nat /\ short)
  /\ ((exists data, fetchData_v2 parseTime now entries = Resolved data)
      <-> List.length (filter recognised entries) = 3%nat /\ ~ short)
  /\ ((exists r, fetchData_v1 parseTime entries = Rejected r)
      <-> List.length (filter recognised entries) <> 3%nat)
  /\ (fetchData_v1 parseTime entries = Uncaught
      <-> List.length (filter recognised entries) = 3%nat /\ short)
  /\ ((exists data, fetchData_v1 parseTime entries = Resolved data)
      <-> List.length (filter recognised entries) = 3%nat /\ ~ short).
Proof.
  intros short.
  set (result := fold_left (on_entry_v2 parseTime) entries []).
  assert (Hres1 : fold_left (on_entry_v1 parseTime) entries [] = result)
    by apply entry_handlers_agree.
  assert (Hlen : List.length result
                 = List.length (filter recognised entries)).
  { unfold result.
    rewrite (pushed_count _ entries [] (on_entry_v2_length parseTime)).
    reflexivity. }
  assert (Hshort : short <-> exists e, In e result /\ snd e = []).
  { pose proof (pushed_timelines parseTime entries []) as Hmap.
    fold result in Hmap. simpl in Hmap. unfold short. split.
    - intros [e [Hin [Hrec Hrows]]].
      assert (Hz : In 0%nat (map (fun e => List.length (snd e)) result)).
      { rewrite Hmap. apply in_map_iff. exists e. split; [lia|].
        apply filter_In. now split. }
      apply in_map_iff in Hz as [kt [Hkt Hin']]. exists kt. split; [exact Hin'|].
      now apply length_zero_iff_nil.
    - intros [kt [Hin Hnil]].
      assert (Hz : In 0%nat (map (fun e => (List.length (rows e) - 1)%nat)
                                 (filter recognised entries))).
      { rewrite <- Hmap. apply in_map_iff. exists kt. split; [|exact Hin].
        cbn beta. apply length_zero_iff_nil. exact Hnil. }
      apply in_map_iff in Hz as [e [He Hin']]. apply filter_In in Hin'.
      exists e. repeat split; try tauto. lia. }
  assert (Hno : (exists e, In e result /\ snd e = [])
                -> Forall (fun e => snd e <> []) result -> False).
  { intros [e [Hin Hnil]] Hall. rewrite Forall_forall in Hall.
    now apply (Hall e Hin). }
  unfold fetchData_v1, fetchData_v2. rewrite Hres1. fold result.
  rewrite <- Hlen.
  destruct (Nat.eq_dec (List.length result) 3) as [H3|H3].
  - destruct (on_end_v2_three_settles now result H3)
      as [[E2 Hex2]|[d2 [E2 Hall2]]];
      destruct (on_end_v1_three_settles result H3)
        as [[E1 Hex1]|[d1 [E1 Hall1]]];
      try (exfalso; eauto; fail);
      rewrite E1, E2, Hshort;
      repeat match goal with
             | |- _ /\ _ => split
             | |- _ <-> _ => split
             end;
      intros;
      repeat match goal with
             | H : exists _, _ = _ |- _ => destruct H
             | H : _ /\ _ |- _ => destruct H
             end;
      try discriminate; try tauto; try (eexists; reflexivity);
      try (split; [assumption|]; intros Hex; eauto).
  - rewrite (@on_end_v2_rejects _ now result H3), (@on_end_v1_rejects _ result H3).
    repeat match goal with
           | |- _ /\ _ => split
           | |- _ <-> _ => split
           end;
      intros;
      repeat match goal with
             | H : exists _, _ = _ |- _ => destruct H
             | H : _ /\ _ |- _ => destruct H
             end;
      try discriminate; try tauto; try (eexists; reflexivity).
Qed.

(** ** What a resolved data set holds *)

(** X9: three results are enough to resolve, whatever their keys.  For three
    non-empty timelines the end handler of either revision resolves, and
    the data set has a timeline under a key exactly when one of the three
    results carries that key; so with a repeated key a series is missing,
    and the guard of [draw] can only pass when the three keys differ. *)
Theorem resolved_fields (JS : JSNumber) (now : Date) (k1 k2 k3 : Key)
        (t1 t2 t3 : Timeline) :
  t1 <> [] -> t2 <> [] -> t3 <> [] ->
  (exists data,
      on_end_v2 now [(k1, t1); (k2, t2); (k3, t3)] = Resolved data
      /\ (forall k, field k data = None <-> k <> k1 /\ k <> k2 /\ k <> k3)
      /\ (draw_guard data = true -> k1 <> k2 /\ k1 <> k3 /\ k2 <> k3))
  /\ (exists data,
         on_end_v1 [(k1, t1); (k2, t2); (k3, t3)] = Resolved data
         /\ (forall k, field k data = None <-> k <> k1 /\ k <> k2 /\ k <> k3)
         /\ (draw_guard data = true -> k1 <> k2 /\ k1 <> k3 /\ k2 <> k3)).
Proof.
  intros H1 H2 H3.
  destruct (@first_time_some _ (k1, t1) H1) as [f1 F1].
  destruct (@first_time_some _ (k2, t2) H2) as [f2 F2].
  destruct (@first_time_some _ (k3, t3) H3) as [f3 F3].
  destruct (@last_time_some _ (k1, t1) H1) as [l1 L1].
  destruct (@last_time_some _ (k2, t2) H2) as [l2 L2].
  destruct (@last_time_some _ (k3, t3) H3) as [l3 L3].
  rewrite (@on_end_v2_three _ now _ _ _ _ _ _ _ _ _ _ _ _ F1 F2 F3 L1 L2 L3).
  rewrite (@on_end_v1_three _ _ _ _ _ _ _ _ _ _ _ _ _ F1 F2 F3 L1 L2 L3).
  split; eexists; (split; [reflexivity|]); unfold collect;
    (split;
     [intros k; destruct k, k1, k2, k3; cbn;
      (split;
       [intros H; try discriminate H; repeat split; discriminate
       |intros [A [B C]]; try reflexivity; congruence])
     |destruct k1, k2, k3; cbn; intros H; try discriminate H;
      repeat split; discriminate]).
Qed.

Lemma resolved_fields_witness :
  exists data,
    on_end_v2 100 [(cases, days_1_3); (cases, days_1_3); (recovered, days_1_3)]
    = Resolved data
    /\ (forall k, field k data = None
                  <-> k <> cases /\ k <> cases /\ k <> recovered)
    /\ (draw_guard data = true
        -> cases <> cases /\ cases <> recovered /\ cases <> recovered).
Proof.
  apply (@resolved_fields IntNumber 100 cases cases recovered
           days_1_3 days_1_3 days_1_3); discriminate.
Defined.

Lemma slice_segment (T : Type) (a : list T) (s e : Z) :
  exists before after, a = before ++ slice a s e ++ after.
Proof.
  unfold slice.
  set (k := Z.to_nat (relative (len a) s)).
  set (n := Z.to_nat (relative (len a) e - relative (len a) s)).
  exists (firstn k a), (skipn n (skipn k a)).
  now rewrite (firstn_skipn n), (firstn_skipn k).
Qed.

(** X10: the aligner only ever cuts.  Whatever the three timelines (sorted
    or not, overlapping or not), every timeline of a resolved data set is a
    run of consecutive points of its input, unchanged and in order. *)
Theorem align_cuts_segments (JS : JSNumber) (now : Date) (c r d : Timeline) :
  (forall data,
      align_v2 now c r d = Resolved data ->
      exists c' r' d',
        data = mkData (Some c') (Some r') (Some d')
        /\ segment_of c' c /\ segment_of r' r /\ segment_of d' d)
  /\ (forall data,
         align_v1 c r d = Resolved data ->
         exists c' r' d',
           data = mkData (Some c') (Some r') (Some d')
           /\ segment_of c' c /\ segment_of r' r /\ segment_of d' d).
Proof.
  split; intros data H.
  - unfold align_v2, on_end_v2 in H.
    change (len [(cases, c); (recovered, r); (deaths, d)] =? 3) with true in H.
    cbv iota in H.
    destruct (firstDate_of _) as [F|]; [|discriminate].
    destruct (lastDate_v2 _ _) as [L|]; [|discriminate].
    injection H as <-. do 3 eexists. split; [reflexivity|].
    repeat split; apply slice_segment.
  - unfold align_v1, on_end_v1 in H.
    change (len [(cases, c); (recovered, r); (deaths, d)] =? 3) with true in H.
    cbv iota in H.
    destruct (firstDate_of _) as [F|]; [|discriminate].
    destruct (lastDate_v1 _) as [L|]; [|discriminate].
    injection H as <-. do 3 eexists. split; [reflexivity|].
    repeat split; apply slice_segment.
Qed.

Lemma align_cuts_segments_witness :
  exists c' r' d',
    mkData (Some (days IntNumber [5])) (Some (days IntNumber [5]))
           (Some days_10_15)
    = mkData (Some c') (Some r') (Some d')
    /\ segment_of c' days_1_5 /\ segment_of r' days_1_5
    /\ segment_of d' days_10_15.
Proof.
  apply (proj1 (@align_cuts_segments IntNumber 100 days_1_5 days_1_5
                                     days_10_15)).
  reflexivity.
Defined.

(** X11: what separates the two revisions.  On ascending timelines with
    firstDate < lastDate, and the clock not before lastDate, the first
    revision returns what the second returns without the points dated
    lastDate. *)
Theorem revisions_differ_at_lastDate (JS : JSNumber) (now : Date)
        (c r d : Timeline) (firstDate lastDate : Date) :
  ascending c = true -> ascending r = true -> ascending d = true ->
  firstDate_of [(cases, c); (recovered, r); (deaths, d)]
  = Some (Finite firstDate) ->
  lastDate_v1 [(cases, c); (recovered, r); (deaths, d)]
  = Some (Finite lastDate) ->
  firstDate < lastDate -> lastDate <= now ->
  exists c2 r2 d2,
    align_v2 now c r d = Resolved (mkData (Some c2) (Some r2) (Some d2))
    /\ align_v1 c r d
       = Resolved
           (mkData (Some (filter (fun p => negb (fst p =? lastDate)) c2))
                   (Some (filter (fun p => negb (fst p =? lastDate)) r2))
                   (Some (filter (fun p => negb (fst p =? lastDate)) d2))).
Proof.
  intros Ac Ar Ad HF HL Hwin Hnow.
  apply ascending_Ascending in Ac, Ar, Ad.
  assert (HL2 : lastDate_v2 now [(cases, c); (recovered, r); (deaths, d)]
                = Some lastDate).
  { destruct (@window_inv_first _ _ _ _ _ _ _ _ HF)
      as [f1 [f2 [f3 [F1 [F2 [F3 _]]]]]].
    destruct (@first_time_last_time _ _ _ _ F1) as [l1 L1].
    destruct (@first_time_last_time _ _ _ _ F2) as [l2 L2].
    destruct (@first_time_last_time _ _ _ _ F3) as [l3 L3].
    rewrite (lastDate_v1_three _ _ _ L1 L2 L3) in HL. injection HL as EL.
    rewrite (lastDate_v2_three now _ _ _ L1 L2 L3).
    rewrite EL, Z.min_r by lia. reflexivity. }
  exists (filter (in_window firstDate lastDate) c),
         (filter (in_window firstDate lastDate) r),
         (filter (in_window firstDate lastDate) d).
  split; [apply align_v2_exact; assumption || lia|].
  rewrite (align_v1_half_open Ac Ar Ad HF HL Hwin).
  assert (Hf : forall t : Timeline,
             filter (fun p => negb (fst p =? lastDate))
                    (filter (in_window firstDate lastDate) t)
             = filter (before_end firstDate lastDate) t).
  { intros t.
    transitivity (filter (fun p => in_window firstDate lastDate p
                                   && negb (fst p =? lastDate)) t);
      [apply filter_filter_and|].
    apply filter_ext. intros p. unfold in_window, before_end.
    destruct (firstDate <=? fst p); simpl; [|reflexivity].
    destruct (fst p <=? lastDate) eqn:E1, (fst p =? lastDate) eqn:E2,
             (fst p <? lastDate) eqn:E3; simpl; try reflexivity; lia. }
  now rewrite !Hf.
Qed.

Lemma revisions_differ_at_lastDate_witness :
  exists c2 r2 d2,
    align_v2 100 days_1_10 days_3_12 days_1_8
    = Resolved (mkData (Some c2) (Some r2) (Some d2))
    /\ align_v1 days_1_10 days_3_12 days_1_8
       = Resolved
           (mkData (Some (filter (fun p => negb (fst p =? 8)) c2))
                   (Some (filter (fun p => negb (fst p =? 8)) r2))
                   (Some (filter (fun p => negb (fst p =? 8)) d2))).
Proof.
  apply (@revisions_differ_at_lastDate IntNumber 100
           days_1_10 days_3_12 days_1_8 3 8);
    try reflexivity; lia.
Defined.

(** ** From the data set to the layers of the chart *)

Section ActiveFacts.
Context {JS : JSNumber} {JM : JSMinus JS}.
Implicit Types c r d : Timeline.

Lemma active_from_some r d c k :
  (k + List.length c <= List.length r)%nat ->
  (k + List.length c <= List.length d)%nat ->
  exists a, mapi_throw (active_point r d) c k = Some a
            /\ dates a = dates c.
Proof.
  revert k. induction c as [|p c IH]; intros k Hr Hd.
  - exists []. split; reflexivity.
  - simpl in Hr, Hd. cbn [mapi_throw]. unfold active_point at 1, at_.
    destruct (nth_error r k) as [pr|] eqn:Er;
      [|apply nth_error_None in Er; lia].
    destruct (nth_error d k) as [pd|] eqn:Ed;
      [|apply nth_error_None in Ed; lia].
    destruct (IH (S k)) as [a [Ha Hdates]]; [lia|lia|].
    rewrite Ha. eexists. split; [reflexivity|].
    unfold dates in *. simpl. now rewrite Hdates.
Qed.

Lemma active_from_none r d c k :
  (k <= List.length r)%nat -> (k <= List.length d)%nat ->
  (List.length r < k + List.length c)%nat
  \/ (List.length d < k + List.length c)%nat ->
  mapi_throw (active_point r d) c k = None.
Proof.
  revert k. induction c as [|p c IH]; intros k Hkr Hkd H.
  - simpl in H. lia.
  - simpl in H. cbn [mapi_throw]. unfold active_point at 1, at_.
    destruct (nth_error r k) as [pr|] eqn:Er; [|reflexivity].
    destruct (nth_error d k) as [pd|] eqn:Ed; [|reflexivity].
    assert (k < List.length r)%nat by (apply nth_error_Some; congruence).
    assert (k < List.length d)%nat by (apply nth_error_Some; congruence).
    rewrite IH; [reflexivity|lia|lia|lia].
Qed.

Lemma draw_guard_lengths c r d :
  draw_guard (mkData (Some c) (Some r) (Some d)) = true <->
  List.length c = List.length r /\ List.length c = List.length d.
Proof.
  unfold draw_guard, len. simpl.
  rewrite andb_true_iff, !Z.eqb_eq. lia.
Qed.
End ActiveFacts.

(** X12: [active] and the guard of [draw].  Computing [active] throws
    exactly when [recovered] or [deaths] is shorter than [cases]; so after
    the guard on the lengths it never throws, and [active] carries the
    dates of [cases]. *)
Theorem active_after_guard (JS : JSNumber) (JM : JSMinus JS)
        (c r d : Timeline) :
  (active_of c r d = None <->
   (List.length r < List.length c)%nat \/ (List.length d < List.length c)%nat)
  /\ (draw_guard (mkData (Some c) (Some r) (Some d)) = true ->
      exists a, active_of c r d = Some a /\ dates a = dates c).
Proof.
  unfold active_of. split.
  - split.
    + intros H.
      destruct (Nat.le_gt_cases (List.length c) (List.length r)) as [Hr|Hr];
        [|now left].
      destruct (Nat.le_gt_cases (List.length c) (List.length d)) as [Hd|Hd];
        [|now right].
      destruct (@active_from_some _ _ r d c 0%nat Hr Hd) as [a [Ha _]].
      congruence.
    + intros H. apply active_from_none; simpl; lia.
  - intros H. apply draw_guard_lengths in H as [Hr Hd].
    apply active_from_some; simpl; lia.
Qed.

Lemma active_after_guard_witness :
  exists a,
    active_of (JM := IntMinus) days_1_3 days_1_3 days_1_3 = Some a
    /\ dates a = dates days_1_3.
Proof.
  apply (@active_after_guard IntNumber IntMinus days_1_3 days_1_3 days_1_3).
  reflexivity.
Defined.

Lemma first_point_kept (JS : JSNumber) k (t : Timeline)
      (firstDate lastDate f : Date) :
  first_time (k, t) = Some f -> firstDate <= f <= lastDate ->
  filter (in_window firstDate lastDate) t <> [].
Proof.
  destruct t as [|[f' v] t]; simpl; [discriminate|].
  intros H Hwin. injection H as ->. unfold in_window at 1. simpl.
  destruct (firstDate <=? f) eqn:E1; [|lia].
  destruct (f <=? lastDate) eqn:E2; [|lia]. discriminate.
Qed.

Lemma same_dates_nonempty (JS : JSNumber) (t t' : Timeline) :
  dates t = dates t' -> t <> [] -> t' <> [].
Proof. destruct t, t'; simpl; congruence. Qed.

Section DrawFacts.
Context {JS : JSNumber} {JM : JSMinus JS}.
Implicit Types c r d : Timeline.

Lemma draw_active_computes c r d :
  draw_guard (mkData (Some c) (Some r) (Some d)) = true ->
  existsb (fun p => comparable (snd p)) c = true ->
  exists a, draw_active (mkData (Some c) (Some r) (Some d)) = Computes a
            /\ dates a = dates c.
Proof.
  intros Hg Hv. unfold draw_active. cbn [data_cases data_recovered data_deaths].
  rewrite Hg. cbn [negb].
  destruct c as [|p c']; [discriminate|].
  rewrite Hv. cbn [negb].
  apply draw_guard_lengths in Hg as [Hr Hd].
  destruct (@active_from_some _ _ r d (p :: c') 0%nat) as [a [Ha Hdates]];
    [simpl in *; lia|simpl in *; lia|].
  exists a. unfold active_of. rewrite Ha. split; [reflexivity|exact Hdates].
Qed.

Lemma draw_active_value_error c r d :
  draw_guard (mkData (Some c) (Some r) (Some d)) = true ->
  c <> [] ->
  existsb (fun p => comparable (snd p)) c = false ->
  draw_active (mkData (Some c) (Some r) (Some d)) = Throws "value error".
Proof.
  intros Hg Hne Hv. unfold draw_active.
  cbn [data_cases data_recovered data_deaths].
  rewrite Hg. cbn [negb].
  destruct c as [|p c']; [congruence|].
  rewrite Hv. reflexivity.
Qed.
End DrawFacts.

(** X13: from the archive to the chart.  When the three timelines are
    ascending with one point per calendar day and the window computed by
    the second revision is not empty, the data set it resolves with passes
    the guard of [draw] and the check on the extent of the dates.  What
    [draw] does next is decided by the values of [cases] within the window:
    when one of them is a number other than NaN, [active] is computed
    without a throw, over the dates of the aligned [cases]; when none is,
    [draw] throws "value error". *)
Theorem aligned_data_draws (JS : JSNumber) (JM : JSMinus JS)
        (day : Z -> Date) (now : Date) (c r d : Timeline)
        (firstDate lastDate : Date) :
  (forall a b, a < b -> day a < day b) ->
  daily day c -> daily day r -> daily day d ->
  firstDate_of [(cases, c); (recovered, r); (deaths, d)]
  = Some (Finite firstDate) ->
  lastDate_v2 now [(cases, c); (recovered, r); (deaths, d)] = Some lastDate ->
  firstDate <= lastDate ->
  exists c' r' d',
    align_v2 now c r d = Resolved (mkData (Some c') (Some r') (Some d'))
    /\ ((exists p, In p c /\ firstDate <= fst p <= lastDate
                   /\ comparable (snd p) = true) ->
        exists a,
          draw_active (mkData (Some c') (Some r') (Some d')) = Computes a
          /\ dates a = dates c')
    /\ ((forall p, In p c -> firstDate <= fst p <= lastDate ->
                   comparable (snd p) = false) ->
        draw_active (mkData (Some c') (Some r') (Some d'))
        = Throws "value error").
Proof.
  intros Hday Dc Dr Dd HF HL Hwin.
  pose proof (daily_Ascending Hday Dc) as Ac.
  pose proof (daily_Ascending Hday Dr) as Ar.
  pose proof (daily_Ascending Hday Dd) as Ad.
  pose proof (align_v2_exact now Ac Ar Ad HF HL Hwin) as Halign.
  destruct (@window_inv_first _ _ _ _ _ _ _ _ HF)
    as [f1 [f2 [f3 [F1 [F2 [F3 EF]]]]]].
  destruct (@first_time_last_time _ _ _ _ F1) as [l1 L1].
  destruct (@first_time_last_time _ _ _ _ F2) as [l2 L2].
  destruct (@first_time_last_time _ _ _ _ F3) as [l3 L3].
  rewrite (lastDate_v2_three now _ _ _ L1 L2 L3) in HL.
  injection HL as EL. injection EF as EF.
  set (W := fun x : Z => (firstDate <=? x) && (x <=? lastDate)).
  assert (HW : forall x, W x = true -> firstDate <= x <= lastDate).
  { unfold W. intros x Hx. apply andb_true_iff in Hx as [H1 H2].
    apply Z.leb_le in H1, H2. lia. }
  set (c' := filter (in_window firstDate lastDate) c) in *.
  set (r' := filter (in_window firstDate lastDate) r) in *.
  set (d' := filter (in_window firstDate lastDate) d) in *.
  assert (Hcr : dates c' = dates r').
  { apply (window_dates Hday W HW Dc Dr F1 L1 F2 L2); lia. }
  assert (Hcd : dates c' = dates d').
  { apply (window_dates Hday W HW Dc Dd F1 L1 F3 L3); lia. }
  assert (Hg : draw_guard (mkData (Some c') (Some r') (Some d')) = true).
  { apply draw_guard_lengths.
    apply (f_equal (@List.length _)) in Hcr, Hcd. unfold dates in Hcr, Hcd.
    rewrite !length_map in Hcr, Hcd. split; assumption. }
  assert (Hne : c' <> []).
  { assert (Hmax : firstDate = f1 \/ firstDate = f2 \/ firstDate = f3) by lia.
    destruct Hmax as [E|[E|E]].
    - apply (first_point_kept _ _ F1). lia.
    - apply (@same_dates_nonempty _ r' c'); [now symmetry|].
      apply (first_point_kept _ _ F2). lia.
    - apply (@same_dates_nonempty _ d' c'); [now symmetry|].
      apply (first_point_kept _ _ F3). lia. }
  exists c', r', d'. split; [exact Halign|]. split.
  - intros [p [Hin [Hp Hv]]]. apply (@draw_active_computes _ _ c' r' d' Hg).
    apply existsb_exists. exists p. split; [|exact Hv].
    unfold c'. apply filter_In. split; [exact Hin|].
    unfold in_window. apply andb_true_iff. split; apply Z.leb_le; lia.
  - intros Hall. apply (@draw_active_value_error _ _ c' r' d' Hg Hne).
    destruct (existsb (fun p => comparable (snd p)) c') eqn:E; [|reflexivity].
    apply existsb_exists in E as [p [Hin Hv]].
    unfold c' in Hin. apply filter_In in Hin as [Hin Hp].
    unfold in_window in Hp. apply andb_true_iff in Hp as [H1 H2].
    apply Z.leb_le in H1, H2.
    rewrite (Hall p Hin) in Hv; [discriminate|lia].
Qed.

Lemma aligned_data_draws_witness :
  exists c' r' d' a,
    align_v2 100 days_1_10 days_3_12 days_1_8
    = Resolved (mkData (Some c') (Some r') (Some d'))
    /\ draw_active (JM := IntMinus) (mkData (Some c') (Some r') (Some d'))
       = Computes a
    /\ dates a = dates c'.
Proof.
  destruct (@aligned_data_draws IntNumber IntMinus day_number 100
              days_1_10 days_3_12 days_1_8 3 8)
    as [c' [r' [d' [Halign [Hdraw _]]]]].
  - unfold day_number. intros a b H. exact H.
  - exists 1. reflexivity.
  - exists 3. reflexivity.
  - exists 1. reflexivity.
  - reflexivity.
  - reflexivity.
  - lia.
  - destruct Hdraw as [a [Ha Hdates]].
    + exists (3, count 0). repeat split; try reflexivity; simpl; try lia.
      right. right. now left.
    + exists c', r', d', a. repeat split; assumption.
Defined.

(** ** Stacking on integer counts *)

Lemma zeros_for_bars (bars : list bar) :
  repeat (zero (JSNumber := IntNumber)) (List.length bars)
  = map (fun _ => Int 0) bars.
Proof.
  induction bars as [|b bars IH]; [reflexivity|].
  cbn [List.length repeat map]. now rewrite IH.
Qed.

Lemma add_values_ints (f g : bar -> Z) (bars : list bar) :
  add_values (JS := IntNumber) (map (fun b => Int (f b)) bars)
             (map (fun b => (bar_date b, count (g b))) bars)
  = map (fun b => Int (f b + g b)) bars.
Proof. induction bars as [|b bars IH]; simpl; [reflexivity|now rewrite IH]. Qed.

Lemma outer_values_ints (f g : bar -> Z) (bars : list bar) :
  outer_values (JS := IntNumber) (map (fun b => Int (f b)) bars)
               (map (fun b => (bar_date b, count (g b))) bars)
  = map (fun b => Int (g b + f b)) bars.
Proof. induction bars as [|b bars IH]; simpl; [reflexivity|now rewrite IH]. Qed.

Lemma active_from_bars (before rest : list bar) :
  mapi_throw (active_point (JM := IntMinus)
                           (recovered_of (before ++ rest))
                           (deaths_of (before ++ rest)))
             (cases_of rest) (List.length before)
  = Some (active_bars rest).
Proof.
  revert before. induction rest as [|b rest IH]; intros before;
    [reflexivity|].
  cbn [cases_of map mapi_throw]. unfold active_point at 1, at_.
  assert (Hr : nth_error (recovered_of (before ++ b :: rest))
                         (List.length before)
               = Some (bar_date b, count (bar_recovered b))).
  { unfold recovered_of. rewrite map_app, nth_error_app2, length_map;
      rewrite ?length_map; [|lia].
    now rewrite Nat.sub_diag. }
  assert (Hd : nth_error (deaths_of (before ++ b :: rest))
                         (List.length before)
               = Some (bar_date b, count (bar_deaths b))).
  { unfold deaths_of. rewrite map_app, nth_error_app2, length_map;
      rewrite ?length_map; [|lia].
    now rewrite Nat.sub_diag. }
  rewrite Hr, Hd.
  specialize (IH (before ++ [b])).
  rewrite <- app_assoc, length_app in IH. simpl in IH.
  replace (List.length before + 1)%nat with (S (List.length before)) in IH
    by lia.
  fold (cases_of rest). rewrite IH. reflexivity.
Qed.

Lemma offsets_within (f : bar -> Z) (bars : list bar) :
  Forall (fun b => 0 <= f b <= bar_cases b) bars ->
  Forall2 (fun b o => within 0 (bar_cases b) o) bars
          (map (fun b => Int (f b)) bars).
Proof.
  induction 1 as [|b bars Hb _ IH]; simpl; constructor; assumption.
Qed.

Lemma active_inside (bars : list bar) :
  Forall counted bars -> Forall2 inside_bar bars (active_bars bars).
Proof.
  induction 1 as [|b bars Hb _ IH]; simpl; constructor; [|exact IH].
  unfold inside_bar, counted in *. simpl. lia.
Qed.

(** X14: on the counts of an epidemic (no count negative, the recovered and
    the dead among the cases, the cases a safe integer) the three layers of
    the chart stack without gap or overlap and add up to the cases:
    [active] is cases - recovered - deaths at every bar, the outer edge of
    each layer is the offset under the next one, the outer edge of the last
    layer is the count of cases, and every value of [active] and every
    offset is an integer between 0 and the cases of its bar, so that no
    step of the computation leaves the range in which doubles are exact. *)
Theorem layers_stack_to_cases (bars : list bar) :
  Forall counted bars ->
  let n := List.length bars in
  let layers := [active_bars bars; recovered_of bars; deaths_of bars] in
  active_of (JM := IntMinus) (cases_of bars) (recovered_of bars)
            (deaths_of bars)
  = Some (active_bars bars)
  /\ outer_values (offset_of layers 0 n) (active_bars bars)
     = offset_of layers 1 n
  /\ outer_values (offset_of layers 1 n) (recovered_of bars)
     = offset_of layers 2 n
  /\ outer_values (offset_of layers 2 n) (deaths_of bars)
     = map (fun b => Int (bar_cases b)) bars
  /\ Forall2 inside_bar bars (active_bars bars)
  /\ Forall2 (fun b o => within 0 (bar_cases b) o) bars (offset_of layers 1 n)
  /\ Forall2 (fun b o => within 0 (bar_cases b) o) bars (offset_of layers 2 n).
Proof.
  intros Hall n layers. split; [apply (active_from_bars [] bars)|].
  assert (H1 : offset_of layers 1 n
               = map (fun b => Int (bar_cases b - bar_recovered b
                                    - bar_deaths b)) bars).
  { unfold layers, offset_of, n. cbn [firstn fold_left].
    rewrite zeros_for_bars. unfold active_bars.
    rewrite add_values_ints. apply map_ext. intros b. apply f_equal. lia. }
  assert (H2 : offset_of layers 2 n
               = map (fun b => Int (bar_cases b - bar_deaths b)) bars).
  { unfold layers, offset_of, n. cbn [firstn fold_left].
    rewrite zeros_for_bars. unfold active_bars, recovered_of.
    rewrite !add_values_ints. apply map_ext. intros b. apply f_equal. lia. }
  rewrite H1, H2.
  assert (H0 : offset_of layers 0 n = map (fun _ => Int 0) bars).
  { unfold offset_of, n. cbn [firstn fold_left]. apply zeros_for_bars. }
  rewrite H0. unfold active_bars at 1, recovered_of, deaths_of.
  rewrite !outer_values_ints.
  repeat split.
  - apply map_ext. intros b. apply f_equal. lia.
  - apply map_ext. intros b. apply f_equal. lia.
  - apply map_ext. intros b. apply f_equal. lia.
  - now apply active_inside.
  - apply offsets_within. eapply Forall_impl; [|exact Hall].
    unfold counted. intros b Hb. lia.
  - apply offsets_within. eapply Forall_impl; [|exact Hall].
    unfold counted. intros b Hb. lia.
Qed.

Lemma layers_stack_to_cases_witness :
  Forall counted three_bars
  /\ outer_values
       (offset_of (JS := IntNumber)
                  [active_bars three_bars; recovered_of three_bars;
                   deaths_of three_bars] 2 3)
       (deaths_of three_bars)
     = [Int 10; Int 12; Int 15].
Proof.
  assert (H : Forall counted three_bars)
    by (repeat constructor; unfold MAX_SAFE_INTEGER; simpl; lia).
  split; [exact H|].
  pose proof (@layers_stack_to_cases three_bars H) as T. cbv zeta in T.
  exact (proj1 (proj2 (proj2 (proj2 T)))).
Defined.

(** ** From the text of a file to its timeline *)

Lemma split_on_length sep s :
  List.length (split_on sep s) = S (count_char sep s).
Proof.
  induction s as [|c s IH]; [reflexivity|]. cbn [split_on count_char].
  destruct (Ascii.eqb c sep).
  - simpl. now rewrite IH.
  - destruct (split_on sep s); [discriminate|]. simpl in *. exact IH.
Qed.

(** X15: a file delivered as one chunk gives one row per line of its
    trimmed text and one point per line after the first: every builder
    returns as many points as the trimmed text has line feeds, so a file
    that holds only a header line, or nothing, gives an empty timeline. *)
Theorem points_per_line (JS : JSNumber) (parseTime : string -> option Date)
        (text : string) :
  List.length (toCSV [text]) = S (count_char LF (trim text))
  /\ List.length (plain_timeline parseTime (toCSV [text]))
     = count_char LF (trim text)
  /\ List.length (cases_timeline_v1 parseTime (toCSV [text]))
     = count_char LF (trim text)
  /\ List.length (cases_timeline_v2 parseTime (toCSV [text]))
     = count_char LF (trim text).
Proof.
  assert (Hrows : List.length (toCSV [text]) = S (count_char LF (trim text))).
  { unfold toCSV. cbn [flat_map]. rewrite app_nil_r. unfold parse_chunk.
    now rewrite length_map, split_on_length. }
  assert (Htl : List.length (tl (toCSV [text])) = count_char LF (trim text)).
  { destruct (toCSV [text]); simpl in *; [discriminate|]. now injection Hrows. }
  assert (H1 : List.length (cases_timeline_v1 parseTime (toCSV [text]))
               = count_char LF (trim text)).
  { now rewrite cases_timeline_v1_unfold, mapi_at_length. }
  repeat split.
  - exact Hrows.
  - unfold plain_timeline. now rewrite slice_from_1, length_map.
  - exact H1.
  - now rewrite <- cases_timelines_agree.
Qed.

(** ** Aligning twice *)

(** X16: aligning is idempotent in the second revision.  When the three
    timelines are ascending with one point per calendar day and the
    computed window is not empty, aligning the resolved data set again, at
    the same clock, resolves with the same data set. *)
Theorem align_v2_idempotent (JS : JSNumber) (day : Z -> Date) (now : Date)
        (c r d : Timeline) (firstDate lastDate : Date) :
  (forall a b, a < b -> day a < day b) ->
  daily day c -> daily day r -> daily day d ->
  firstDate_of [(cases, c); (recovered, r); (deaths, d)]
  = Some (Finite firstDate) ->
  lastDate_v2 now [(cases, c); (recovered, r); (deaths, d)] = Some lastDate ->
  firstDate <= lastDate ->
  exists c' r' d',
    align_v2 now c r d = Resolved (mkData (Some c') (Some r') (Some d'))
    /\ align_v2 now c' r' d' = Resolved (mkData (Some c') (Some r') (Some d')).
Proof.
  intros Hday Dc Dr Dd HF HL Hwin.
  pose proof (daily_Ascending Hday Dc) as Ac.
  pose proof (daily_Ascending Hday Dr) as Ar.
  pose proof (daily_Ascending Hday Dd) as Ad.
  pose proof (align_v2_exact now Ac Ar Ad HF HL Hwin) as Halign.
  destruct (@window_inv_first _ _ _ _ _ _ _ _ HF)
    as [f1 [f2 [f3 [F1 [F2 [F3 EF]]]]]].
  destruct (@first_time_last_time _ _ _ _ F1) as [l1 L1].
  destruct (@first_time_last_time _ _ _ _ F2) as [l2 L2].
  destruct (@first_time_last_time _ _ _ _ F3) as [l3 L3].
  rewrite (lastDate_v2_three now _ _ _ L1 L2 L3) in HL.
  injection HL as EL. injection EF as EF.
  set (W := fun x : Z => (firstDate <=? x) && (x <=? lastDate)).
  assert (HW : forall x, W x = true -> firstDate <= x <= lastDate).
  { unfold W. intros x Hx. apply andb_true_iff in Hx as [H1 H2].
    apply Z.leb_le in H1, H2. lia. }
  set (c' := filter (in_window firstDate lastDate) c) in *.
  set (r' := filter (in_window firstDate lastDate) r) in *.
  set (d' := filter (in_window firstDate lastDate) d) in *.
  assert (Hcr : dates c' = dates r').
  { apply (window_dates Hday W HW Dc Dr F1 L1 F2 L2); lia. }
  assert (Hcd : dates c' = dates d').
  { apply (window_dates Hday W HW Dc Dd F1 L1 F3 L3); lia. }
  assert (Hne : c' <> []).
  { assert (Hmax : firstDate = f1 \/ firstDate = f2 \/ firstDate = f3) by lia.
    destruct Hmax as [E|[E|E]].
    - apply (first_point_kept _ _ F1). lia.
    - apply (@same_dates_nonempty _ r' c'); [now symmetry|].
      apply (first_point_kept _ _ F2). lia.
    - apply (@same_dates_nonempty _ d' c'); [now symmetry|].
      apply (first_point_kept _ _ F3). lia. }
  exists c', r', d'. split; [exact Halign|].
  destruct c' as [|[f v] rest] eqn:Ec; [congruence|]. rewrite <- Ec in *.
  destruct (exists_last Hne) as [init [[l w] Hlast]].
  assert (Hl : l <= now).
  { assert (Hin : In (l, w) c').
    { rewrite Hlast. apply in_or_app. right. now left. }
    unfold c' in Hin. apply filter_In in Hin as [_ Hin].
    unfold in_window in Hin. simpl in Hin.
    apply andb_true_iff in Hin as [_ Hin]. apply Z.leb_le in Hin. lia. }
  destruct (@same_dates_ends JS c' r' f l v rest init w Ec Hlast
              (eq_sym Hcr)) as [vr [rr [ir [wr [Hr1 Hr2]]]]].
  destruct (@same_dates_ends JS c' d' f l v rest init w Ec Hlast
              (eq_sym Hcd)) as [vd [rd [id [wd [Hd1 Hd2]]]]].
  assert (G1 : first_time (cases, c') = Some f) by (rewrite Ec; reflexivity).
  assert (G2 : first_time (recovered, r') = Some f)
    by (rewrite Hr1; reflexivity).
  assert (G3 : first_time (deaths, d') = Some f)
    by (rewrite Hd1; reflexivity).
  assert (M1 : last_time (cases, c') = Some l)
    by (rewrite Hlast; apply last_time_snoc).
  assert (M2 : last_time (recovered, r') = Some l)
    by (rewrite Hr2; apply last_time_snoc).
  assert (M3 : last_time (deaths, d') = Some l)
    by (rewrite Hd2; apply last_time_snoc).
  unfold align_v2.
  rewrite (@on_end_v2_three _ now _ _ _ _ _ _ _ _ _ _ _ _ G1 G2 G3 M1 M2 M3).
  rewrite !Z.max_id, !Z.min_id, (Z.min_r now l) by lia.
  unfold collect. simpl.
  rewrite (@truncate_v2_whole JS f l c' v rest init w Ec Hlast).
  rewrite (@truncate_v2_whole JS f l r' vr rr ir wr Hr1 Hr2).
  rewrite (@truncate_v2_whole JS f l d' vd rd id wd Hd1 Hd2).
  reflexivity.
Qed.

Lemma align_v2_idempotent_witness :
  exists c' r' d',
    align_v2 100 days_1_10 days_3_12 days_1_8
    = Resolved (mkData (Some c') (Some r') (Some d'))
    /\ align_v2 100 c' r' d' = Resolved (mkData (Some c') (Some r') (Some d')).
Proof.
  apply (@align_v2_idempotent IntNumber day_number 100
           days_1_10 days_3_12 days_1_8 3 8).
  - unfold day_number. intros a b H. exact H.
  - exists 1. reflexivity.
  - exists 3. reflexivity.
  - exists 1. reflexivity.
  - reflexivity.
  - reflexivity.
  - lia.
Defined.
